(** * The flannel charm: a shallow embedding of [reactive/flannel.py]

    The charm is a set of flag-gated handlers run by the reactive engine.
    Each handler is a short sequence of library calls and subprocess
    invocations.  The embedding has four layers:

    - the pieces of the Python library the handlers compute with
      ([str.split], [str.strip], [in], [os.path.join], [json.dumps],
      [shlex.split]), as executable functions on strings;
    - the host as the handlers see it: a record of oracles ([world]) for
      everything read from outside, and a [state] for everything written;
    - the handlers, in a small state-and-exception monad, statement by
      statement;
    - the reactive engine: guards built from [@when], [@when_not],
      [@when_any], and runs of dispatched handlers.

    Python [str] values are modelled by [string]; a character stands for
    a code point below 256. *)

From Stdlib Require Import ZArith Ascii String List Bool Lia.
From stdpp Require Import base gmap strings list.

Import ListNotations.
Local Open Scope string_scope.
Local Open Scope list_scope.

#[local] Set Warnings "-clear-no-such-hyp".

(** String concatenation unfolds on a literal left operand. *)
#[local] Arguments String.append !s1 s2 : simpl nomatch.

(** ** Python strings *)

Module PyStr.

(** The characters the handlers name. *)
Definition space : ascii := " "%char.
Definition newline : ascii := "010"%char.
Definition squote : ascii := "'"%char.
Definition dquote : ascii := "034"%char.
Definition backslash : ascii := "\"%char.
Definition slash : ascii := "/"%char.

(** [s.split(sep)] for a one-character separator: the fields between
    the occurrences of [sep]; never the empty list. *)
Fixpoint split_on (sep : ascii) (s : string) : list string :=
  match s with
  | EmptyString => [EmptyString]
  | String c r =>
      if Ascii.eqb c sep then EmptyString :: split_on sep r
      else match split_on sep r with
           | h :: t => String c h :: t
           | [] => [String c EmptyString]
           end
  end.

(** [l[-1]] on a list of strings ([split_on] never returns [[]]). *)
Definition last_field (l : list string) : string := List.last l EmptyString.

(** [sub in s]. *)
Fixpoint contains (sub s : string) : bool :=
  String.prefix sub s ||
  match s with
  | EmptyString => false
  | String _ r => contains sub r
  end.

(** [c.isspace()] for code points below 256. *)
Definition is_space (c : ascii) : bool :=
  let n := N_of_ascii c in
  ((9 <=? n) && (n <=? 13) || (28 <=? n) && (n <=? 32)
   || (n =? 133) || (n =? 160))%N.

Fixpoint lstrip (s : string) : string :=
  match s with
  | EmptyString => EmptyString
  | String c r => if is_space c then lstrip r else s
  end.

Fixpoint rstrip (s : string) : string :=
  match s with
  | EmptyString => EmptyString
  | String c r =>
      match rstrip r with
      | EmptyString => if is_space c then EmptyString else String c EmptyString
      | r' => String c r'
      end
  end.

(** [s.strip()]. *)
Definition strip (s : string) : string := rstrip (lstrip s).

(** Truth value of a string: [bool(s)]. *)
Definition truthy (s : string) : bool :=
  match s with EmptyString => false | _ => true end.

(** [c in s] for a character. *)
Fixpoint has_char (c : ascii) (s : string) : bool :=
  match s with
  | EmptyString => false
  | String d r => Ascii.eqb d c || has_char c r
  end.

Fixpoint all_chars (p : ascii -> bool) (s : string) : bool :=
  match s with
  | EmptyString => true
  | String d r => p d && all_chars p r
  end.

Definition starts_with (c : ascii) (s : string) : bool :=
  match s with String d _ => Ascii.eqb d c | EmptyString => false end.

Fixpoint ends_with (c : ascii) (s : string) : bool :=
  match s with
  | EmptyString => false
  | String d EmptyString => Ascii.eqb d c
  | String _ r => ends_with c r
  end.

Definition starts_space (s : string) : bool :=
  match s with String d _ => is_space d | EmptyString => false end.

Fixpoint ends_space (s : string) : bool :=
  match s with
  | EmptyString => false
  | String d EmptyString => is_space d
  | String _ r => ends_space r
  end.

(** [sep.join(l)]. *)
Fixpoint join (sep : string) (l : list string) : string :=
  match l with
  | [] => EmptyString
  | [x] => x
  | x :: r => x +:+ sep +:+ join sep r
  end.

End PyStr.

(** ** [os.path.join] (posixpath) *)

Module PosixPath.

(** One step of the loop of [posixpath.join]: an absolute component
    replaces the path, otherwise it is appended, with a separator unless
    the path is empty or ends with one. *)
Definition join2 (path b : string) : string :=
  if PyStr.starts_with PyStr.slash b then b
  else if negb (PyStr.truthy path) || PyStr.ends_with PyStr.slash path
       then path +:+ b
       else path +:+ "/" +:+ b.

Definition join (a : string) (p : list string) : string :=
  fold_left join2 p a.

End PosixPath.

(** ** [json.dumps] on the values the charm serialises *)

Module Json.

Definition hex_digit (n : N) : ascii :=
  match n with
  | 0 => "0" | 1 => "1" | 2 => "2" | 3 => "3" | 4 => "4" | 5 => "5"
  | 6 => "6" | 7 => "7" | 8 => "8" | 9 => "9" | 10 => "a" | 11 => "b"
  | 12 => "c" | 13 => "d" | 14 => "e" | _ => "f"
  end%N%char.

(** [ensure_ascii] escaping of one character: the short escapes of
    [ESCAPE_DCT], the printable range [' '..'~'] as itself, everything
    else as [\u00xx]. *)
Definition escape_char (c : ascii) : string :=
  let n := N_of_ascii c in
  if (n =? 34)%N then String PyStr.backslash (String PyStr.dquote EmptyString)
  else if (n =? 92)%N then "\\"
  else if (n =? 10)%N then "\n"
  else if (n =? 13)%N then "\r"
  else if (n =? 9)%N then "\t"
  else if (n =? 8)%N then "\b"
  else if (n =? 12)%N then "\f"
  else if ((32 <=? n) && (n <=? 126))%N then String c EmptyString
  else "\u00" +:+ String (hex_digit (n / 16)) (String (hex_digit (n mod 16)) EmptyString).

Fixpoint escape (s : string) : string :=
  match s with
  | EmptyString => EmptyString
  | String c r => escape_char c +:+ escape r
  end.

Definition quote (s : string) : string :=
  String PyStr.dquote (escape s +:+ String PyStr.dquote EmptyString).

(** A configuration value: [None] when the option is unset, a [str]
    otherwise. *)
Definition dumps_value (v : option string) : string :=
  match v with
  | None => "null"
  | Some s => quote s
  end.

(** [json.dumps({'Network': v, 'Backend': {'Type': 'vxlan'}})], with the
    default separators and the keys in the order of the dictionary
    literal (the iteration order of a [dict] since CPython 3.6). *)
Definition dumps_network (v : option string) : string :=
  "{" +:+ quote "Network" +:+ ": " +:+ dumps_value v +:+ ", "
      +:+ quote "Backend" +:+ ": {" +:+ quote "Type" +:+ ": "
      +:+ quote "vxlan" +:+ "}}".

End Json.

(** ** Exceptions *)

Inductive exn : Type :=
| CalledProcessError (argv : list string) (code : Z)
| ValueError (msg : string)
| TypeError
| OSError
| OtherError.

Inductive result (A : Type) : Type :=
| Ok (a : A)
| Raise (e : exn).
Arguments Ok {A} a.
Arguments Raise {A} e.

(** ** [shlex.split]

    [shlex.split(s)] runs the POSIX-mode lexer with [whitespace_split]
    set and no comment characters, and collects the tokens.  The lexer
    state is the [state] attribute of [shlex]: between tokens ([' ']),
    inside a word (['a']), inside a quotation (the quote character), or
    after an escape character (with [escapedstate] naming the state to
    return to). *)

Module Shlex.

Inductive lex_state : Type :=
| Between
| InWord
| InQuote (q : ascii)
| Escaped (back : option ascii).

Definition is_whitespace (c : ascii) : bool :=
  let n := N_of_ascii c in
  ((n =? 32) || (n =? 9) || (n =? 13) || (n =? 10))%N.
Definition is_quote (c : ascii) : bool :=
  Ascii.eqb c PyStr.squote || Ascii.eqb c PyStr.dquote.
Definition is_escape (c : ascii) : bool := Ascii.eqb c PyStr.backslash.
(** [escapedquotes]: an escape is honoured inside double quotes only. *)
Definition is_escapedquote (q : ascii) : bool := Ascii.eqb q PyStr.dquote.

Definition snoc (tok : string) (c : ascii) : string :=
  tok +:+ String c EmptyString.

(** A token is emitted when it is non-empty or was quoted. *)
Definition emit (tok : string) (quoted : bool) (acc : list string) : list string :=
  if PyStr.truthy tok || quoted then acc ++ [tok] else acc.

(** The loop of [read_token], run over the whole input; [acc] holds the
    tokens already returned, [tok] and [quoted] the token being read. *)
Fixpoint lex (st : lex_state) (tok : string) (quoted : bool)
         (acc : list string) (input : string) : result (list string) :=
  match input with
  | EmptyString =>
      match st with
      | Between | InWord => Ok (emit tok quoted acc)
      | InQuote _ => Raise (ValueError "No closing quotation")
      | Escaped _ => Raise (ValueError "No escaped character")
      end
  | String c rest =>
      match st with
      | Between =>
          if is_whitespace c then lex Between EmptyString false (emit tok quoted acc) rest
          else if is_escape c then lex (Escaped None) tok quoted acc rest
          else if is_quote c then lex (InQuote c) tok true acc rest
          else lex InWord (String c EmptyString) quoted acc rest
      | InWord =>
          if is_whitespace c then lex Between EmptyString false (emit tok quoted acc) rest
          else if is_quote c then lex (InQuote c) tok true acc rest
          else if is_escape c then lex (Escaped None) tok quoted acc rest
          else lex InWord (snoc tok c) quoted acc rest
      | InQuote q =>
          if Ascii.eqb c q then lex InWord tok true acc rest
          else if is_escape c && is_escapedquote q then lex (Escaped (Some q)) tok true acc rest
          else lex (InQuote q) (snoc tok c) true acc rest
      | Escaped back =>
          match back with
          | Some q =>
              let tok' :=
                if negb (Ascii.eqb c PyStr.backslash) && negb (Ascii.eqb c q)
                then snoc tok PyStr.backslash else tok in
              lex (InQuote q) (snoc tok' c) quoted acc rest
          | None => lex InWord (snoc tok c) quoted acc rest
          end
      end
  end.

Definition split (s : string) : result (list string) :=
  lex Between EmptyString false [] s.

End Shlex.

(** ** The host

    Everything a handler reads from outside is an oracle of the [world]:
    the resource store, [os.stat], the environment, the charm
    configuration, the etcd relation, and the subprocesses (an argument
    vector has an exit status and an output).  A subprocess is taken to
    be spawned successfully; what the command does to the host is not
    part of the model, only that it was run. *)

Record world : Type := World {
  (** [resource_get(name)]: a path, [False] ([None]), or an exception. *)
  resource_get : string -> result (option string);
  (** [os.stat(path).st_size]; [None] when the path cannot be examined. *)
  st_size : string -> option Z;
  (** [os.getenv(name)]. *)
  getenv : string -> option string;
  (** [config(key)]: [None] when the option is unset. *)
  config : string -> option string;
  (** [etcd.get_connection_string()]. *)
  get_connection_string : string;
  (** Exit status of the process started with this argument vector. *)
  exit_status : list string -> Z;
  (** Its decoded output. *)
  output_of : list string -> string
}.

(** What a handler does that is visible from outside, in order. *)
Inductive event : Type :=
| Log (msg : string)
| LogArgv (argv : list string)
| StatusSet (workload msg : string)
| Call (argv : list string)
| Makedirs (path : string)
| Render (template target : string) (context : list (string * option string))
| SaveClientCredentials (key cert ca : string)
| ServiceStart (name : string)
| ServiceStop (name : string)
| SetAvailable
| ApplicationVersionSet (v : string)
| Remove (path : string).

(** What persists between handlers: the flags of the reactive engine,
    the workload status, the application version, and the paths present
    on the host. *)
Record state : Type := State {
  flags : gset string;
  status : option (string * string);
  app_version : option string;
  files : gset string
}.

Definition with_flags (f : gset string -> gset string) (s : state) : state :=
  State (f (flags s)) (status s) (app_version s) (files s).
Definition with_status (st : string * string) (s : state) : state :=
  State (flags s) (Some st) (app_version s) (files s).
Definition with_version (v : string) (s : state) : state :=
  State (flags s) (status s) (Some v) (files s).
Definition with_files (f : gset string -> gset string) (s : state) : state :=
  State (flags s) (status s) (app_version s) (f (files s)).

(** ** The handler monad: reader of the world, state, exceptions, and a
    writer of events. *)

Record outcome (A : Type) : Type := Outcome {
  res : result A;
  final : state;
  events : list event
}.
Arguments Outcome {A} res final events.
Arguments res {A} o.
Arguments final {A} o.
Arguments events {A} o.

Definition M (A : Type) : Type := world -> state -> outcome A.

Definition ret {A} (a : A) : M A := fun _ s => Outcome (Ok a) s [].

Definition bind {A B} (m : M A) (k : A -> M B) : M B :=
  fun w s =>
    let o := m w s in
    match res o with
    | Ok a => let o' := k a w (final o) in
              Outcome (res o') (final o') (events o ++ events o')
    | Raise e => Outcome (Raise e) (final o) (events o)
    end.

Notation "x <- m ;; k" := (bind m (fun x => k))
  (at level 100, m at next level, right associativity).
Notation "m ;;; k" := (bind m (fun _ => k))
  (at level 100, right associativity).

Definition raise {A} (e : exn) : M A := fun _ s => Outcome (Raise e) s [].
Definition ask {A} (f : world -> A) : M A := fun w s => Outcome (Ok (f w)) s [].
Definition get {A} (f : state -> A) : M A := fun _ s => Outcome (Ok (f s)) s [].
Definition modify (f : state -> state) : M unit := fun _ s => Outcome (Ok tt) (f s) [].
Definition tell (e : event) : M unit := fun _ s => Outcome (Ok tt) s [e].
Definition lift {A} (r : result A) : M A :=
  match r with Ok a => ret a | Raise e => raise e end.

(** [try: m  except <caught>: h]. *)
Definition try_except {A} (m : M A) (caught : exn -> bool) (h : M A) : M A :=
  fun w s =>
    let o := m w s in
    match res o with
    | Ok a => o
    | Raise e =>
        if caught e then
          let o' := h w (final o) in
          Outcome (res o') (final o') (events o ++ events o')
        else o
    end.

(** [for x in l: body(x)]. *)
Fixpoint for_each {A} (l : list A) (body : A -> M unit) : M unit :=
  match l with
  | [] => ret tt
  | x :: r => body x ;;; for_each r body
  end.

(** An outcome with earlier events put in front. *)
Definition prepend {A} (ev : list event) (o : outcome A) : outcome A :=
  Outcome (res o) (final o) (ev ++ events o).

(** ** The library calls of the handlers *)

Definition log (msg : string) : M unit := tell (Log msg).
Definition log_argv (argv : list string) : M unit := tell (LogArgv argv).

Definition status_set (workload msg : string) : M unit :=
  tell (StatusSet workload msg) ;;; modify (with_status (workload, msg)).

Definition set_state (flag : string) : M unit :=
  modify (with_flags (fun fl => {[flag]} ∪ fl)).
Definition remove_state (flag : string) : M unit :=
  modify (with_flags (fun fl => fl ∖ {[flag]})).

(** [subprocess.check_call(argv)]: a non-zero exit status raises
    [CalledProcessError]. *)
Definition check_call (argv : list string) : M unit :=
  tell (Call argv) ;;;
  code <- ask (fun w => exit_status w argv) ;;
  if (code =? 0)%Z then ret tt else raise (CalledProcessError argv code).

(** [subprocess.check_output(argv).decode(...)]. *)
Definition check_output (argv : list string) : M string :=
  tell (Call argv) ;;;
  code <- ask (fun w => exit_status w argv) ;;
  if (code =? 0)%Z then ask (fun w => output_of w argv)
  else raise (CalledProcessError argv code).

(** [render(template, target, context)] writes [target]. *)
Definition render (template target : string)
           (context : list (string * option string)) : M unit :=
  tell (Render template target context) ;;;
  modify (with_files (fun fs => {[target]} ∪ fs)).

(** [etcd.save_client_credentials(key, cert, ca)] writes the three files. *)
Definition save_client_credentials (key cert ca : string) : M unit :=
  tell (SaveClientCredentials key cert ca) ;;;
  modify (with_files (fun fs => {[key; cert; ca]} ∪ fs)).

Definition service_start (name : string) : M unit := tell (ServiceStart name).
Definition service_stop (name : string) : M unit := tell (ServiceStop name).
Definition set_available_on_cni : M unit := tell SetAvailable.

Definition application_version_set (v : string) : M unit :=
  tell (ApplicationVersionSet v) ;;; modify (with_version v).

(** [os.makedirs(path, exist_ok=True)]. *)
Definition makedirs (path : string) : M unit :=
  tell (Makedirs path) ;;; modify (with_files (fun fs => {[path]} ∪ fs)).

Definition path_exists (path : string) : M bool :=
  get (fun s => bool_decide (path ∈ files s)).

(** [os.remove(path)] on a path that is present. *)
Definition os_remove (path : string) : M unit :=
  tell (Remove path) ;;; modify (with_files (fun fs => fs ∖ {[path]})).

(** [shlex.split] inside a handler: a [ValueError] is an exception of
    the handler. *)
Definition split (cmd : string) : M (list string) := lift (Shlex.split cmd).

(** ** The handlers of [reactive/flannel.py] *)

Definition ETCD_PATH : string := "/etc/ssl/flannel".
Definition ETCD_KEY_PATH : string := PosixPath.join ETCD_PATH ["client-key.pem"].
Definition ETCD_CERT_PATH : string := PosixPath.join ETCD_PATH ["client-cert.pem"].
Definition ETCD_CA_PATH : string := PosixPath.join ETCD_PATH ["client-ca.pem"].

(** An entry of the [apps] list: [{'name': ..., 'path': ...}]. *)
Record app : Type := App { name : string; path : string }.

Definition apps : list app :=
  [ App "flanneld" "/usr/local/bin";
    App "etcdctl" "/usr/local/bin";
    App "flannel" "/opt/cni/bin";
    App "bridge" "/opt/cni/bin";
    App "host-local" "/opt/cni/bin" ].

(** [not archive] for what [resource_get] returns. *)
Definition falsy (v : option string) : bool :=
  match v with
  | None => true
  | Some s => negb (PyStr.truthy s)
  end.

(** [a or b] on optional strings. *)
Definition py_or (a b : option string) : option string :=
  if falsy a then b else a.

Definition blocked (message : string) : M unit :=
  log message ;;; status_set "blocked" message.

Definition install_one (unpack_path : string) (a : app) : M unit :=
  let unpacked := PosixPath.join unpack_path [name a] in
  let app_path := PosixPath.join (path a) [name a] in
  let install := ["install"; "-v"; "-D"; unpacked; app_path] in
  check_call install.

(** [@when_not('flannel.binaries.installed')] *)
Definition install_flannel_binaries : M unit :=
  fetched <- ask (fun w => resource_get w "flannel") ;;
  match fetched with
  | Raise _ => blocked "Error fetching the flannel resource."
  | Ok None => blocked "Missing flannel resource."
  | Ok (Some archive) =>
      if negb (PyStr.truthy archive) then blocked "Missing flannel resource."
      else
        size <- ask (fun w => st_size w archive) ;;
        match size with
        | None => raise OSError
        | Some filesize =>
            if (filesize <? 1000000)%Z then blocked "Incomplete flannel resource"
            else
              status_set "maintenance" "Unpacking flannel resource." ;;;
              dir <- ask (fun w => getenv w "CHARM_DIR") ;;
              match dir with
              | None => raise TypeError
              | Some charm_dir =>
                  let unpack_path := PosixPath.join charm_dir ["files"; "flannel"] in
                  makedirs unpack_path ;;;
                  let cmd := ["tar"; "xfz"; archive; "-C"; unpack_path] in
                  log_argv cmd ;;;
                  check_call cmd ;;;
                  for_each apps (install_one unpack_path) ;;;
                  set_state "flannel.binaries.installed"
              end
        end
  end.

(** [@when('cni.is-worker') @when_not('flannel.cni.configured')] *)
Definition configure_cni : M unit :=
  render "10-flannel.conf" "/etc/cni/net.d/10-flannel.conf" [] ;;;
  set_state "flannel.cni.configured".

(** [@when('etcd.tls.available')
    @when_not('flannel.etcd.credentials.installed')] *)
Definition install_etcd_credentials : M unit :=
  save_client_credentials ETCD_KEY_PATH ETCD_CERT_PATH ETCD_CA_PATH ;;;
  set_state "flannel.etcd.credentials.installed".

(** The loop over the lines of the [route] output: the last
    space-separated field of the first line that contains ['default']. *)
Fixpoint default_interface (lines : list string) : option string :=
  match lines with
  | [] => None
  | line :: rest =>
      if PyStr.contains "default" line
      then Some (PyStr.last_field (PyStr.split_on PyStr.space line))
      else default_interface rest
  end.

(** [@when('flannel.binaries.installed',
          'flannel.etcd.credentials.installed', 'etcd.available')
    @when_not('flannel.service.installed')] *)
Definition install_flannel_service : M unit :=
  status_set "maintenance" "Installing flannel service." ;;;
  let cmd := ["route"] in
  output <- check_output cmd ;;
  let default_interface := default_interface (PyStr.split_on PyStr.newline output) in
  iface <- ask (fun w => config w "iface") ;;
  connection_string <- ask get_connection_string ;;
  let context := [ ("iface", py_or iface default_interface);
                   ("connection_string", Some connection_string);
                   ("cert_path", Some ETCD_PATH) ] in
  render "flannel.service" "/lib/systemd/system/flannel.service" context ;;;
  set_state "flannel.service.installed".

(** The command line assembled by [configure_network], before it is
    split. *)
Definition network_command (connection_string : string) (data : string) : string :=
  let cmd := "etcdctl " in
  let cmd := cmd +:+ ("--endpoint '" +:+ connection_string +:+ "' ") in
  let cmd := cmd +:+ ("--cert-file " +:+ ETCD_CERT_PATH +:+ " ") in
  let cmd := cmd +:+ ("--key-file " +:+ ETCD_KEY_PATH +:+ " ") in
  let cmd := cmd +:+ ("--ca-file " +:+ ETCD_CA_PATH +:+ " ") in
  cmd +:+ ("set /coreos.com/network/config '" +:+ data +:+ "'").

(** [@when('flannel.binaries.installed',
          'flannel.etcd.credentials.installed', 'etcd.available')
    @when_not('flannel.network.configured')] *)
Definition configure_network : M unit :=
  cidr <- ask (fun w => config w "cidr") ;;
  let data := Json.dumps_network cidr in
  connection_string <- ask get_connection_string ;;
  argv <- split (network_command connection_string data) ;;
  check_call argv ;;;
  set_state "flannel.network.configured".

(** [@when('flannel.binaries.installed', 'flannel.service.installed',
          'flannel.network.configured')
    @when_not('flannel.service.started')] *)
Definition start_flannel_service : M unit :=
  status_set "maintenance" "Starting flannel service." ;;;
  service_start "flannel" ;;;
  set_state "flannel.service.started".

(** [@when('flannel.service.started', 'cni.is-worker')
    @when_not('flannel.cni.available')] *)
Definition set_available : M unit :=
  set_available_on_cni ;;;
  set_state "flannel.cni.available".

(** [@when('flannel.binaries.installed') @when_not('flannel.version.set')] *)
Definition set_flannel_version : M unit :=
  status_set "maintenance" "Setting flannel version." ;;;
  argv <- split "flanneld -version" ;;
  version <- check_output argv ;;
  if PyStr.truthy version then
    application_version_set
      (PyStr.strip (PyStr.last_field (PyStr.split_on "v"%char version))) ;;;
    set_state "flannel.version.set"
  else ret tt.

(** [@when('flannel.service.started')
    @when_any('cni.is-master', 'flannel.cni.available')] *)
Definition ready : M unit :=
  status_set "active" "Flannel is active.".

(** [@when_not('etcd.connected')] *)
Definition halt_execution : M unit :=
  status_set "waiting" "Waiting for etcd relation.".

(** [@hook('upgrade-charm')] *)
Definition reset_states_and_redeploy : M unit :=
  remove_state "flannel.binaries.installed".

Definition is_called_process_error (e : exn) : bool :=
  match e with CalledProcessError _ _ => true | _ => false end.

Definition cleanup_files : list string :=
  [ "/usr/local/bin/flanneld";
    "/lib/systemd/system/flannel";
    "/lib/systemd/system/flannel.service";
    ETCD_KEY_PATH;
    ETCD_CERT_PATH;
    ETCD_CA_PATH;
    "/var/run/flannel/subnet.env" ].

Definition remove_if_exists (f : string) : M unit :=
  present <- path_exists f ;;
  if present then log ("Removing " +:+ f) ;;; os_remove f else ret tt.

(** [@hook('stop')] *)
Definition cleanup_deployment : M unit :=
  service_stop "flannel" ;;;
  let down := "ip link set flannel.1 down" in
  let delete := "ip link delete flannel.1" in
  try_except
    (argv <- split down ;; check_call argv ;;;
     argv <- split delete ;; check_call argv)
    is_called_process_error
    (log "Unable to remove iface flannel.1" ;;;
     log "Potential indication that cleanup is not possible") ;;;
  for_each cleanup_files remove_if_exists.

(** ** The reactive engine

    The engine keeps the set of flags and invokes a handler only when
    the predicates of its decorators hold on that set.  Which eligible
    handler it picks next is not specified, so a run is any sequence of
    dispatches, hook invocations and flag changes made by the relation
    layers; a dispatch of a handler whose guard does not hold does
    nothing. *)

Inductive handler : Type :=
| h_install_flannel_binaries
| h_configure_cni
| h_install_etcd_credentials
| h_install_flannel_service
| h_configure_network
| h_start_flannel_service
| h_set_available
| h_set_flannel_version
| h_ready
| h_halt_execution.

#[global] Instance handler_eq_dec : EqDecision handler.
Proof. solve_decision. Defined.

Inductive hook : Type :=
| upgrade_charm
| stop.

Definition is_set (fl : gset string) (f : string) : bool := bool_decide (f ∈ fl).
Definition when (fs : list string) (fl : gset string) : bool := forallb (is_set fl) fs.
Definition when_not (f : string) (fl : gset string) : bool := negb (is_set fl f).
Definition when_any (fs : list string) (fl : gset string) : bool := existsb (is_set fl) fs.

Definition guard (h : handler) (fl : gset string) : bool :=
  match h with
  | h_install_flannel_binaries => when_not "flannel.binaries.installed" fl
  | h_configure_cni =>
      when ["cni.is-worker"] fl && when_not "flannel.cni.configured" fl
  | h_install_etcd_credentials =>
      when ["etcd.tls.available"] fl
      && when_not "flannel.etcd.credentials.installed" fl
  | h_install_flannel_service =>
      when ["flannel.binaries.installed"; "flannel.etcd.credentials.installed";
            "etcd.available"] fl
      && when_not "flannel.service.installed" fl
  | h_configure_network =>
      when ["flannel.binaries.installed"; "flannel.etcd.credentials.installed";
            "etcd.available"] fl
      && when_not "flannel.network.configured" fl
  | h_start_flannel_service =>
      when ["flannel.binaries.installed"; "flannel.service.installed";
            "flannel.network.configured"] fl
      && when_not "flannel.service.started" fl
  | h_set_available =>
      when ["flannel.service.started"; "cni.is-worker"] fl
      && when_not "flannel.cni.available" fl
  | h_set_flannel_version =>
      when ["flannel.binaries.installed"] fl && when_not "flannel.version.set" fl
  | h_ready =>
      when ["flannel.service.started"] fl
      && when_any ["cni.is-master"; "flannel.cni.available"] fl
  | h_halt_execution => when_not "etcd.connected" fl
  end.

Definition body (h : handler) : M unit :=
  match h with
  | h_install_flannel_binaries => install_flannel_binaries
  | h_configure_cni => configure_cni
  | h_install_etcd_credentials => install_etcd_credentials
  | h_install_flannel_service => install_flannel_service
  | h_configure_network => configure_network
  | h_start_flannel_service => start_flannel_service
  | h_set_available => set_available
  | h_set_flannel_version => set_flannel_version
  | h_ready => ready
  | h_halt_execution => halt_execution
  end.

Definition hook_body (k : hook) : M unit :=
  match k with
  | upgrade_charm => reset_states_and_redeploy
  | stop => cleanup_deployment
  end.

(** The flag a step sets when it has run to its end. *)
Definition completion_flag (h : handler) : option string :=
  match h with
  | h_install_flannel_binaries => Some "flannel.binaries.installed"
  | h_configure_cni => Some "flannel.cni.configured"
  | h_install_etcd_credentials => Some "flannel.etcd.credentials.installed"
  | h_install_flannel_service => Some "flannel.service.installed"
  | h_configure_network => Some "flannel.network.configured"
  | h_start_flannel_service => Some "flannel.service.started"
  | h_set_available => Some "flannel.cni.available"
  | h_set_flannel_version => Some "flannel.version.set"
  | h_ready => None
  | h_halt_execution => None
  end.

Definition install_steps : list handler :=
  [ h_install_flannel_binaries; h_configure_cni; h_install_etcd_credentials;
    h_install_flannel_service; h_configure_network; h_start_flannel_service;
    h_set_available; h_set_flannel_version ].

(** One dispatch: the handler runs if its guard holds, else nothing. *)
Definition dispatch (h : handler) : M unit :=
  fun w s => if guard h (flags s) then body h w s else Outcome (Ok tt) s [].

(** The flags owned by the relation layers. *)
Inductive relation_flag : Type :=
| etcd_connected
| etcd_available
| etcd_tls_available
| cni_is_worker
| cni_is_master.

Definition relation_flag_name (r : relation_flag) : string :=
  match r with
  | etcd_connected => "etcd.connected"
  | etcd_available => "etcd.available"
  | etcd_tls_available => "etcd.tls.available"
  | cni_is_worker => "cni.is-worker"
  | cni_is_master => "cni.is-master"
  end.

Inductive action : Type :=
| Dispatch (h : handler)
| Hook (k : hook)
| RelationSet (r : relation_flag)
| RelationClear (r : relation_flag).

(** What the run remembers of a handler that was invoked. *)
Record entry : Type := Entry {
  ran : handler;
  returned : result unit;
  flags_after : gset string
}.

Definition completed (h : handler) (e : entry) : bool :=
  match returned e, completion_flag h with
  | Ok _, Some f => bool_decide (ran e = h) && is_set (flags_after e) f
  | _, _ => false
  end.

Definition perform (w : world) (a : action) (s : state) : list entry * state :=
  match a with
  | Dispatch h =>
      if guard h (flags s) then
        let o := body h w s in
        ([Entry h (res o) (flags (final o))], final o)
      else ([], s)
  | Hook k => ([], final (hook_body k w s))
  | RelationSet r => ([], with_flags (fun fl => {[relation_flag_name r]} ∪ fl) s)
  | RelationClear r => ([], with_flags (fun fl => fl ∖ {[relation_flag_name r]}) s)
  end.

(** A run: the history of invoked handlers and the state reached. *)
Fixpoint exec (sched : list (world * action)) (hist : list entry) (s : state)
  : list entry * state :=
  match sched with
  | [] => (hist, s)
  | (w, a) :: rest =>
      let '(es, s') := perform w a s in
      exec rest (hist ++ es) s'
  end.

Definition run (sched : list (world * action)) (s : state) : list entry * state :=
  exec sched [] s.

(** A fresh unit: no flag of the charm is set. *)
Definition fresh (s : state) : Prop :=
  forall h f, completion_flag h = Some f -> f ∉ flags s.

(** The argument vector [configure_network] means to run. *)
Definition network_argv (connection_string data : string) : list string :=
  [ "etcdctl"; "--endpoint"; connection_string;
    "--cert-file"; "/etc/ssl/flannel/client-cert.pem";
    "--key-file"; "/etc/ssl/flannel/client-key.pem";
    "--ca-file"; "/etc/ssl/flannel/client-ca.pem";
    "set"; "/coreos.com/network/config"; data ].

(** * Sample hosts *)

Definition route_table : string :=
  PyStr.join (String PyStr.newline EmptyString)
    [ "Kernel IP routing table";
      "Destination     Gateway         Genmask         Flags Metric Ref    Use Iface";
      "default         10.0.0.1        0.0.0.0         UG    0      0        0 eth0";
      "10.0.0.0        *               255.255.255.0   U     0      0        0 eth0";
      EmptyString ].

(** A host on which everything is in place: the resource is a two
    megabyte archive, every command succeeds, [route] names [eth0] and
    [flanneld -version] prints [v0.7.0]. *)
Definition sample_world : world :=
  World (fun _ => Ok (Some "/var/lib/juju/resources/flannel.tar.gz"))
        (fun _ => Some 2000000%Z)
        (fun _ => Some "/var/lib/juju/agents/unit-flannel-0/charm")
        (fun k => if String.eqb k "cidr" then Some "10.1.0.0/16" else None)
        "https://10.0.0.5:2379"
        (fun _ => 0%Z)
        (fun argv => match argv with
                     | ["route"] => route_table
                     | _ => String "v" ("0.7.0" +:+ String PyStr.newline EmptyString)
                     end).

(** The same host with every command failing with status [code]. *)
Definition failing_world (code : Z) : world :=
  World (resource_get sample_world) (st_size sample_world)
        (getenv sample_world) (config sample_world)
        (get_connection_string sample_world)
        (fun _ => code) (output_of sample_world).

(** The same host with other configuration values. *)
Definition configured_world (cfg : string -> option string) : world :=
  World (resource_get sample_world) (st_size sample_world)
        (getenv sample_world) cfg
        (get_connection_string sample_world)
        (exit_status sample_world) (output_of sample_world).

(** The sample host with the [iface] option set to [eth1]. *)
Definition iface_world : world :=
  configured_world
    (fun k => if String.eqb k "iface" then Some "eth1" else config sample_world k).

Definition empty_state : state := State ∅ None None ∅.

(** * Specification vocabulary *)

(** [sub] occurs in [s]. *)
Definition substring_of (sub s : string) : Prop :=
  exists a b, s = a +:+ sub +:+ b.

(** [ls] are the lines of [out]: the pieces between the newlines. *)
Definition lines_of (out : string) (ls : list string) : Prop :=
  ls <> []
  /\ Forall (fun l => PyStr.has_char PyStr.newline l = false) ls
  /\ out = PyStr.join (String PyStr.newline EmptyString) ls.

(** [field] is what follows the last [sep] of [s], or all of [s] when it
    has none. *)
Definition last_field_of (sep : ascii) (s field : string) : Prop :=
  PyStr.has_char sep field = false
  /\ (s = field \/ exists pre, s = pre +:+ String sep field).

(** The default interface named by a [route] output: the last
    space-separated field of the first line containing [default], if
    there is such a line. *)
Definition default_interface_is (out : string) (r : option string) : Prop :=
  exists ls,
    lines_of out ls
    /\ ((exists before line after field,
            ls = before ++ line :: after
            /\ Forall (fun l => ~ substring_of "default" l) before
            /\ substring_of "default" line
            /\ last_field_of PyStr.space line field
            /\ r = Some field)
        \/ (Forall (fun l => ~ substring_of "default" l) ls /\ r = None)).

(** What [install_flannel_service] does when it renders the unit file
    for the interface [iface]. *)
Definition service_events (w : world) (iface : option string) : list event :=
  [ StatusSet "maintenance" "Installing flannel service.";
    Call ["route"];
    Render "flannel.service" "/lib/systemd/system/flannel.service"
           [ ("iface", iface);
             ("connection_string", Some (get_connection_string w));
             ("cert_path", Some "/etc/ssl/flannel") ] ].

Definition service_installed (s : state) : state :=
  State ({["flannel.service.installed"]} ∪ flags s)
        (Some ("maintenance", "Installing flannel service."))
        (app_version s)
        ({["/lib/systemd/system/flannel.service"]} ∪ files s).

(** [core] is [s] without the white space around it. *)
Definition stripped_of (s core : string) : Prop :=
  exists l r,
    s = l +:+ core +:+ r
    /\ PyStr.all_chars PyStr.is_space l = true
    /\ PyStr.all_chars PyStr.is_space r = true
    /\ PyStr.starts_space core = false
    /\ PyStr.ends_space core = false.

(** The version a [flanneld -version] output stands for: what follows
    its last [v] (all of it when it has none), stripped. *)
Definition version_of (out v : string) : Prop :=
  exists tail, last_field_of "v"%char out tail /\ stripped_of tail v.

Definition version_argv : list string := ["flanneld"; "-version"].

(** The sample host with another output of [flanneld -version]. *)
Definition version_world (out : string) : world :=
  World (resource_get sample_world) (st_size sample_world)
        (getenv sample_world) (config sample_world)
        (get_connection_string sample_world)
        (exit_status sample_world)
        (fun argv => match argv with
                     | ["route"] => route_table
                     | _ => out
                     end).

Definition version_status : string * string :=
  ("maintenance", "Setting flannel version.").

(** The commands of [install_flannel_binaries]. *)
Definition unpack_dir (charm_dir : string) : string :=
  PosixPath.join charm_dir ["files"; "flannel"].

Definition tar_argv (archive unpack_path : string) : list string :=
  ["tar"; "xfz"; archive; "-C"; unpack_path].

Definition install_argv (unpack_path name dest : string) : list string :=
  ["install"; "-v"; "-D"; PosixPath.join unpack_path [name]; dest].

Definition install_commands (unpack_path : string) : list (list string) :=
  [ install_argv unpack_path "flanneld" "/usr/local/bin/flanneld";
    install_argv unpack_path "etcdctl" "/usr/local/bin/etcdctl";
    install_argv unpack_path "flannel" "/opt/cni/bin/flannel";
    install_argv unpack_path "bridge" "/opt/cni/bin/bridge";
    install_argv unpack_path "host-local" "/opt/cni/bin/host-local" ].

(** What the handler does before it runs its first command. *)
Definition unpack_events (archive unpack_path : string) : list event :=
  [ StatusSet "maintenance" "Unpacking flannel resource.";
    Makedirs unpack_path;
    LogArgv (tar_argv archive unpack_path) ].

Definition unpacking (unpack_path : string) (s : state) : state :=
  State (flags s) (Some ("maintenance", "Unpacking flannel resource."))
        (app_version s) ({[unpack_path]} ∪ files s).

(** The handler gives up: it logs, reports [blocked] and returns. *)
Definition blocked_outcome (message : string) (s : state) : outcome unit :=
  Outcome (Ok tt) (with_status ("blocked", message) s)
          [Log message; StatusSet "blocked" message].

(** The sample host with a resource of [size] bytes. *)
Definition sized_world (size : Z) : world :=
  World (resource_get sample_world) (fun _ => Some size)
        (getenv sample_world) (config sample_world)
        (get_connection_string sample_world)
        (exit_status sample_world) (output_of sample_world).

(** The two commands that remove the interface. *)
Definition link_down : list string := ["ip"; "link"; "set"; "flannel.1"; "down"].
Definition link_delete : list string := ["ip"; "link"; "delete"; "flannel.1"].

Definition unable_to_remove : list event :=
  [ Log "Unable to remove iface flannel.1";
    Log "Potential indication that cleanup is not possible" ].

(** What [cleanup_deployment] does about the interface: the second
    command is run only after the first succeeded, and a failure of
    either is logged. *)
Definition interface_events (w : world) : list event :=
  if (exit_status w link_down =? 0)%Z then
    if (exit_status w link_delete =? 0)%Z
    then [Call link_down; Call link_delete]
    else [Call link_down; Call link_delete] ++ unable_to_remove
  else [Call link_down] ++ unable_to_remove.

(** The removal of the files of [l] that are present in [fs]. *)
Definition removal_events (l : list string) (fs : gset string) : list event :=
  flat_map (fun f => if bool_decide (f ∈ fs)
                     then [Log ("Removing " +:+ f); Remove f] else []) l.

(** The files [cleanup_deployment] knows about. *)
Definition known_files : gset string :=
  {[ "/usr/local/bin/flanneld";
     "/lib/systemd/system/flannel";
     "/lib/systemd/system/flannel.service";
     "/etc/ssl/flannel/client-key.pem";
     "/etc/ssl/flannel/client-cert.pem";
     "/etc/ssl/flannel/client-ca.pem";
     "/var/run/flannel/subnet.env" ]}.

(** What a handler leaves behind: flags and files added, a status and a
    version overwritten. *)
Record delta : Type := Delta {
  add_flags : gset string;
  set_status : option (string * string);
  set_version : option string;
  add_files : gset string
}.

Definition apply_delta (d : delta) (s : state) : state :=
  State (add_flags d ∪ flags s)
        (match set_status d with Some st => Some st | None => status s end)
        (match set_version d with Some v => Some v | None => app_version s end)
        (add_files d ∪ files s).

Definition flag_set (h : handler) : gset string :=
  match completion_flag h with
  | Some f => {[f]}
  | None => ∅
  end.

Definition all_exit_zero (w : world) (cmds : list (list string)) : bool :=
  forallb (fun c => (exit_status w c =? 0)%Z) cmds.

(** The conditions under which a handler runs to its last statement. *)
Definition succeeds (h : handler) (w : world) : bool :=
  match h with
  | h_install_flannel_binaries =>
      match resource_get w "flannel" with
      | Ok (Some archive) =>
          PyStr.truthy archive
          && match st_size w archive, getenv w "CHARM_DIR" with
             | Some size, Some charm_dir =>
                 (1000000 <=? size)%Z
                 && all_exit_zero w (tar_argv archive (unpack_dir charm_dir)
                                       :: install_commands (unpack_dir charm_dir))
             | _, _ => false
             end
      | _ => false
      end
  | h_install_flannel_service => (exit_status w ["route"] =? 0)%Z
  | h_configure_network =>
      match Shlex.split (network_command (get_connection_string w)
                                         (Json.dumps_network (config w "cidr"))) with
      | Ok argv => (exit_status w argv =? 0)%Z
      | Raise _ => false
      end
  | h_set_flannel_version =>
      (exit_status w version_argv =? 0)%Z && PyStr.truthy (output_of w version_argv)
  | _ => true
  end.

Definition no_change : delta := Delta ∅ None None ∅.
Definition only_status (workload msg : string) : delta :=
  Delta ∅ (Some (workload, msg)) None ∅.

(** The order in which the specification lists the steps. *)
Definition listed_order : list handler :=
  [ h_install_flannel_binaries; h_install_etcd_credentials;
    h_install_flannel_service; h_configure_network; h_start_flannel_service;
    h_set_available; h_set_flannel_version ].

Fixpoint before_in (order : list handler) (h : handler) : list handler :=
  match order with
  | [] => []
  | x :: rest => if decide (x = h) then [] else x :: before_in rest h
  end.

(** The steps listed before [h]; none for a handler that is not listed. *)
Definition listed_before (h : handler) : list handler :=
  if bool_decide (In h listed_order) then before_in listed_order h else [].

(** The steps whose flags the decorators of [h] ask for. *)
Definition requires (h : handler) : list handler :=
  match h with
  | h_install_flannel_service | h_configure_network =>
      [h_install_flannel_binaries; h_install_etcd_credentials]
  | h_start_flannel_service =>
      [h_install_flannel_binaries; h_install_flannel_service; h_configure_network]
  | h_set_available | h_ready => [h_start_flannel_service]
  | h_set_flannel_version => [h_install_flannel_binaries]
  | _ => []
  end.

(** The steps that have to be over before [h] can run: those it
    requires, and those they need. *)
Definition needs (h : handler) : list handler :=
  match h with
  | h_install_flannel_service | h_configure_network =>
      [h_install_flannel_binaries; h_install_etcd_credentials]
  | h_start_flannel_service =>
      [ h_install_flannel_binaries; h_install_etcd_credentials;
        h_install_flannel_service; h_configure_network ]
  | h_set_available | h_ready =>
      [ h_install_flannel_binaries; h_install_etcd_credentials;
        h_install_flannel_service; h_configure_network; h_start_flannel_service ]
  | h_set_flannel_version => [h_install_flannel_binaries]
  | _ => []
  end.

(** A run respects [before] when no handler is invoked until every step
    of [before] it has run to its end earlier in the run. *)
Definition respects (before : handler -> list handler)
           (sched : list (world * action)) (s0 : state) : Prop :=
  forall pre w h post hist s,
    sched = pre ++ (w, Dispatch h) :: post ->
    run pre s0 = (hist, s) ->
    guard h (flags s) = true ->
    forall p, In p (before h) -> exists e, In e hist /\ completed p e = true.

(** A unit that installs its binaries and reports the version before
    etcd is related. *)
Definition version_first : list (world * action) :=
  [ (sample_world, Dispatch h_install_flannel_binaries);
    (sample_world, Dispatch h_set_flannel_version) ].

(** A whole deployment on the sample host. *)
Definition deployment : list (world * action) :=
  [ (sample_world, Dispatch h_halt_execution);
    (sample_world, Dispatch h_install_flannel_binaries);
    (sample_world, Dispatch h_set_flannel_version);
    (sample_world, RelationSet etcd_connected);
    (sample_world, RelationSet etcd_tls_available);
    (sample_world, RelationSet etcd_available);
    (sample_world, Dispatch h_install_etcd_credentials);
    (sample_world, Dispatch h_configure_network);
    (sample_world, Dispatch h_install_flannel_service);
    (sample_world, Dispatch h_start_flannel_service);
    (sample_world, RelationSet cni_is_worker);
    (sample_world, Dispatch h_configure_cni);
    (sample_world, Dispatch h_set_available);
    (sample_world, Dispatch h_ready) ].

(** Flags of the charm that are set stand for steps that have run to
    their end, together with all they need. *)
Definition accounted (hist : list entry) (s : state) : Prop :=
  forall h f, completion_flag h = Some f -> f ∈ flags s ->
    forall p, p = h \/ In p (needs h) ->
      exists e, In e hist /\ completed p e = true.

(** The commands run in a trace. *)
Definition calls (ev : list event) : list (list string) :=
  flat_map (fun e => match e with Call c => [c] | _ => [] end) ev.

(** An event that reports a failure to the operator: a log message, or
    a [blocked] or [waiting] status. *)
Definition is_failure_report (e : event) : bool :=
  match e with
  | Log _ => true
  | StatusSet workload _ => String.eqb workload "blocked" || String.eqb workload "waiting"
  | _ => false
  end.

Definition quiet (ev : list event) : bool :=
  forallb (fun e => negb (is_failure_report e)) ev.

(** A [CalledProcessError] comes from the command run last, which
    exited with a non-zero status. *)
Definition raised_by (w : world) (e : exn) (ev : list event) : Prop :=
  match e with
  | CalledProcessError c code =>
      code = exit_status w c /\ code <> 0%Z /\ exists ev', ev = ev' ++ [Call c]
  | _ => True
  end.

(** A trace without a command run twice, and, when it ends in an
    exception, without a report of it. *)
Definition trace_ok (w : world) (r : result unit) (ev : list event) : Prop :=
  NoDup (calls ev)
  /\ forall e, r = Raise e -> quiet ev = true /\ raised_by w e ev.

(** ** Vocabulary for whole runs *)

(** [m] leaves every state in relation [R] with the state it started
    from. *)
Definition frames {A} (R : state -> state -> Prop) (m : M A) : Prop :=
  forall w s, R s (final (m w s)).


(** The unit reports [active]. *)
Definition reports_active (s : state) : Prop :=
  exists msg, status s = Some ("active", msg).

(** An [active] status is not new. *)
Definition active_only_if_before (s s' : state) : Prop :=
  reports_active s' -> reports_active s.



(** The relation layer never marks the unit as a worker. *)
Definition never_worker (sched : list (world * action)) : Prop :=
  forall w, ~ In (w, RelationSet cni_is_worker) sched.

(** The handlers that were invoked in a history. *)
Definition invoked (hist : list entry) : list handler := map ran hist.

(** The messages that go with a [blocked] status. *)
Definition blocked_messages : list string :=
  [ "Error fetching the flannel resource.";
    "Missing flannel resource.";
    "Incomplete flannel resource" ].

(** The unit reports [blocked] with the message [msg]. *)
Definition reports_blocked (msg : string) (s : state) : Prop :=
  status s = Some ("blocked", msg).

(** A [blocked] status is not new, or carries one of the three
    messages. *)
Definition blocked_by_resource (s s' : state) : Prop :=
  forall msg, reports_blocked msg s' ->
              In msg blocked_messages \/ reports_blocked msg s.

(** A [blocked] status is not new. *)
Definition blocked_only_if_before (s s' : state) : Prop :=
  forall msg, reports_blocked msg s' -> reports_blocked msg s.

(** * First checks *)

Example shlex_split_plain :
  Shlex.split "ip link set flannel.1 down" = Ok ["ip"; "link"; "set"; "flannel.1"; "down"].
Proof. reflexivity. Qed.

Example shlex_split_quoted :
  Shlex.split "a 'b c' '' d'e'f" = Ok ["a"; "b c"; EmptyString; "def"].
Proof. reflexivity. Qed.

Example shlex_split_unclosed :
  Shlex.split "set key 'x" = Raise (ValueError "No closing quotation").
Proof. reflexivity. Qed.

Example etcd_paths :
  (ETCD_KEY_PATH, ETCD_CERT_PATH, ETCD_CA_PATH)
  = ("/etc/ssl/flannel/client-key.pem", "/etc/ssl/flannel/client-cert.pem",
     "/etc/ssl/flannel/client-ca.pem").
Proof. reflexivity. Qed.

(** * Facts about the string functions *)

Section PyStrFacts.

Import PyStr.

Lemma append_nil_r (s : string) : s +:+ EmptyString = s.
Proof. induction s as [|c s IH]; simpl; [reflexivity | now rewrite IH]. Qed.

Lemma append_assoc (a b c : string) : (a +:+ b) +:+ c = a +:+ (b +:+ c).
Proof. induction a as [|x a IH]; simpl; [reflexivity | now rewrite IH]. Qed.

Lemma split_on_not_nil sep s : split_on sep s <> [].
Proof.
  destruct s as [|c r]; simpl; [discriminate |].
  destruct (Ascii.eqb c sep); [discriminate |].
  destruct (split_on sep r); discriminate.
Qed.

Lemma split_on_no_sep sep s : has_char sep s = false -> split_on sep s = [s].
Proof.
  induction s as [|c r IH]; simpl; [reflexivity |].
  intros H. apply orb_false_iff in H as [Hc Hr].
  rewrite Hc, (IH Hr). reflexivity.
Qed.

(** Splitting distributes over a separator in the middle. *)
Lemma split_on_app sep pre suf :
  split_on sep (pre +:+ String sep suf) = split_on sep pre ++ split_on sep suf.
Proof.
  induction pre as [|c p IH]; simpl.
  - now rewrite Ascii.eqb_refl.
  - destruct (Ascii.eqb c sep); [now rewrite IH |].
    rewrite IH. pose proof (split_on_not_nil sep p) as Hne.
    destruct (split_on sep p) as [|h t]; [contradiction | reflexivity].
Qed.

Lemma last_app_not_nil (l1 l2 : list string) d :
  l2 <> [] -> List.last (l1 ++ l2) d = List.last l2 d.
Proof.
  intros Hne. induction l1 as [|x l1 IH]; [reflexivity |].
  simpl. destruct (l1 ++ l2) eqn:E; [|exact IH].
  apply app_eq_nil in E as [_ E]. contradiction.
Qed.

(** The last field is what follows the last separator. *)
Lemma last_field_after sep pre suf :
  has_char sep suf = false ->
  last_field (split_on sep (pre +:+ String sep suf)) = suf.
Proof.
  intros H. unfold last_field. rewrite split_on_app.
  rewrite last_app_not_nil by apply split_on_not_nil.
  now rewrite (split_on_no_sep _ _ H).
Qed.

Lemma last_field_whole sep s :
  has_char sep s = false -> last_field (split_on sep s) = s.
Proof. intros H. unfold last_field. now rewrite (split_on_no_sep _ _ H). Qed.

(** [split] undoes [join] on fields that do not hold the separator. *)
Lemma split_on_join sep (l : list string) :
  l <> [] ->
  Forall (fun x => has_char sep x = false) l ->
  split_on sep (join (String sep EmptyString) l) = l.
Proof.
  intros Hne Hall. induction Hall as [|x r Hx Hr IH]; [contradiction |].
  destruct r as [|y r'].
  - simpl. now apply split_on_no_sep.
  - change (join (String sep EmptyString) (x :: y :: r'))
      with (x +:+ String sep (join (String sep EmptyString) (y :: r'))).
    rewrite split_on_app, IH by discriminate.
    now rewrite (split_on_no_sep _ _ Hx).
Qed.

Lemma prefix_app p s :
  String.prefix p s = true <-> exists b, s = p +:+ b.
Proof.
  revert s. induction p as [|c p IH]; intros s.
  - split; [intros _; exists s; reflexivity | intros _; now destruct s].
  - destruct s as [|d s]; simpl.
    + split; [discriminate | intros [b Hb]; discriminate].
    + destruct (ascii_dec c d) as [->|Hne].
      * rewrite IH. split; intros [b Hb]; exists b; [now rewrite Hb | now inversion Hb].
      * split; [discriminate | intros [b Hb]; simpl in Hb; congruence].
Qed.

(** [sub in s] holds exactly when [s] has [sub] somewhere inside. *)
Lemma contains_spec sub s :
  contains sub s = true <-> exists a b, s = a +:+ sub +:+ b.
Proof.
  induction s as [|c s IH].
  - change (contains sub EmptyString)
      with (String.prefix sub EmptyString || false).
    rewrite orb_false_r, prefix_app. split.
    + intros [b Hb]. exists EmptyString, b. exact Hb.
    + intros [a [b Hb]]. destruct a; [now exists b | discriminate].
  - change (contains sub (String c s))
      with (String.prefix sub (String c s) || contains sub s).
    rewrite orb_true_iff, prefix_app, IH. split.
    + intros [[b Hb] | [a [b Hb]]].
      * exists EmptyString, b. exact Hb.
      * exists (String c a), b. simpl. now rewrite Hb.
    + intros [a [b Hb]]. destruct a as [|d a].
      * left. now exists b.
      * right. exists a, b. now inversion Hb.
Qed.

Lemma all_space_lstrip l t :
  all_chars is_space l = true -> lstrip (l +:+ t) = lstrip t.
Proof.
  induction l as [|c l IH]; simpl; [reflexivity |].
  intros H. apply andb_true_iff in H as [Hc Hl]. now rewrite Hc, IH.
Qed.

Lemma lstrip_fixed t : starts_space t = false -> lstrip t = t.
Proof. destruct t as [|c t]; simpl; [reflexivity | now intros ->]. Qed.

Lemma all_space_rstrip r : all_chars is_space r = true -> rstrip r = EmptyString.
Proof.
  induction r as [|c r IH]; simpl; [reflexivity |].
  intros H. apply andb_true_iff in H as [Hc Hr]. now rewrite (IH Hr), Hc.
Qed.

Lemma rstrip_cons c r :
  rstrip (String c r)
  = match rstrip r with
    | EmptyString => if is_space c then EmptyString else String c EmptyString
    | r' => String c r'
    end.
Proof. reflexivity. Qed.

Lemma rstrip_core t r :
  t <> EmptyString -> ends_space t = false -> all_chars is_space r = true ->
  rstrip (t +:+ r) = t.
Proof.
  intros Hne He Hr. induction t as [|c t IH]; [contradiction |].
  destruct t as [|d t].
  - simpl in *. now rewrite (all_space_rstrip _ Hr), He.
  - change (String c (String d t) +:+ r) with (String c (String d t +:+ r)).
    rewrite rstrip_cons, IH; [reflexivity | discriminate | exact He].
Qed.

(** [strip] returns the core of a string wrapped in white space. *)
Lemma strip_core l t r :
  all_chars is_space l = true -> all_chars is_space r = true ->
  starts_space t = false -> ends_space t = false ->
  strip (l +:+ t +:+ r) = t.
Proof.
  intros Hl Hr Hs He. unfold strip. rewrite all_space_lstrip by exact Hl.
  destruct t as [|c t].
  - simpl. rewrite <- (append_nil_r r), all_space_lstrip by exact Hr.
    reflexivity.
  - rewrite lstrip_fixed by (simpl in *; exact Hs).
    apply rstrip_core; [discriminate | exact He | exact Hr].
Qed.

Lemma last_sep_decomp sep s :
  has_char sep s = true ->
  exists pre f, s = pre +:+ String sep f /\ has_char sep f = false.
Proof.
  induction s as [|c r IH]; [discriminate |].
  simpl. destruct (has_char sep r) eqn:Hr.
  - intros _. destruct (IH eq_refl) as (pre & f & -> & Hf).
    exists (String c pre), f. split; [reflexivity | exact Hf].
  - rewrite orb_false_r. intros Hc. apply Ascii.eqb_eq in Hc as ->.
    exists EmptyString, r. split; [reflexivity | exact Hr].
Qed.

(** The field [split_on] returns last is the one after the last
    separator. *)
Lemma last_field_split sep s :
  last_field_of sep s (last_field (split_on sep s)).
Proof.
  destruct (has_char sep s) eqn:H.
  - destruct (last_sep_decomp _ _ H) as (pre & f & -> & Hf).
    rewrite (last_field_after _ _ _ Hf). split; [exact Hf | right; now exists pre].
  - rewrite (last_field_whole _ _ H). split; [exact H | now left].
Qed.

Lemma last_field_of_unique sep s f :
  last_field_of sep s f -> last_field (split_on sep s) = f.
Proof.
  intros [Hf [-> | [pre ->]]].
  - now apply last_field_whole.
  - now apply last_field_after.
Qed.

Lemma split_on_fields sep s :
  Forall (fun x => has_char sep x = false) (split_on sep s).
Proof.
  induction s as [|c r IH]; simpl; [now repeat constructor |].
  destruct (Ascii.eqb c sep) eqn:Hc; [now constructor |].
  destruct (split_on sep r) as [|h t].
  { constructor; [simpl; now rewrite Hc | constructor]. }
  inversion IH as [|? ? Hh Ht]; subst. constructor; [|exact Ht].
  simpl. now rewrite Hc, Hh.
Qed.

(** [join] undoes [split]. *)
Lemma join_split_on sep s :
  join (String sep EmptyString) (split_on sep s) = s.
Proof.
  induction s as [|c r IH]; [reflexivity |].
  pose proof (split_on_not_nil sep r) as Hne.
  simpl split_on. destruct (Ascii.eqb_spec c sep) as [->|Hc].
  - destruct (split_on sep r) as [|h t]; [contradiction |].
    change (join (String sep EmptyString) (EmptyString :: h :: t))
      with (String sep (join (String sep EmptyString) (h :: t))).
    now rewrite IH.
  - destruct (split_on sep r) as [|h t]; [contradiction |].
    destruct t as [|h' t]; simpl in *; now rewrite <- IH.
Qed.

Lemma split_on_lines out : lines_of out (split_on newline out).
Proof.
  split; [apply split_on_not_nil |].
  split; [apply split_on_fields | symmetry; apply join_split_on].
Qed.

Lemma lines_of_unique out ls : lines_of out ls -> split_on newline out = ls.
Proof. intros (Hne & Hall & ->). now apply split_on_join. Qed.

Lemma contains_false sub s : contains sub s = false -> ~ substring_of sub s.
Proof.
  intros H Hs. apply contains_spec in Hs. congruence.
Qed.

Lemma contains_true sub s : substring_of sub s -> contains sub s = true.
Proof. intros H. now apply contains_spec. Qed.

Lemma not_substring sub s : ~ substring_of sub s -> contains sub s = false.
Proof.
  intros H. destruct (contains sub s) eqn:E; [|reflexivity].
  exfalso. apply H. now apply contains_spec.
Qed.

Lemma lstrip_decomp s :
  exists l, s = l +:+ lstrip s
            /\ all_chars is_space l = true /\ starts_space (lstrip s) = false.
Proof.
  induction s as [|c s IH].
  - exists EmptyString. now repeat split.
  - simpl. destruct (is_space c) eqn:Hc.
    + destruct IH as (l & Hl & Hs & Hst). exists (String c l).
      split; [simpl; now rewrite <- Hl |].
      split; [simpl; now rewrite Hc | exact Hst].
    + exists EmptyString. split; [reflexivity |]. split; [reflexivity | exact Hc].
Qed.

Lemma rstrip_decomp s :
  exists r, s = rstrip s +:+ r
            /\ all_chars is_space r = true /\ ends_space (rstrip s) = false.
Proof.
  induction s as [|c s IH].
  - exists EmptyString. now repeat split.
  - destruct IH as (r & Hr & Hs & He). rewrite rstrip_cons.
    destruct (rstrip s) as [|d t] eqn:E.
    + simpl in Hr. subst s. destruct (is_space c) eqn:Hc.
      * exists (String c r). split; [reflexivity |].
        split; [simpl; now rewrite Hc | reflexivity].
      * exists r. split; [reflexivity |]. split; [exact Hs | exact Hc].
    + exists r. split; [simpl; now rewrite Hr |]. split; [exact Hs | exact He].
Qed.

Lemma rstrip_starts t : starts_space t = false -> starts_space (rstrip t) = false.
Proof.
  destruct t as [|c t]; [reflexivity |]. intros Hc. simpl in Hc.
  rewrite rstrip_cons. destruct (rstrip t); [now rewrite Hc | exact Hc].
Qed.

(** [strip] does return the core of its argument, and only that. *)
Lemma strip_stripped s : stripped_of s (strip s).
Proof.
  destruct (lstrip_decomp s) as (l & Hl & Hls & Hst).
  destruct (rstrip_decomp (lstrip s)) as (r & Hr & Hrs & He).
  exists l, r. unfold strip.
  split; [now rewrite <- Hr |].
  split; [exact Hls |]. split; [exact Hrs |].
  split; [now apply rstrip_starts | exact He].
Qed.

Lemma stripped_unique s core : stripped_of s core -> strip s = core.
Proof.
  intros (l & r & -> & Hl & Hr & Hs & He). now apply strip_core.
Qed.

End PyStrFacts.

(** * Facts about the lexer and the serialiser *)

Section ShlexFacts.

Import PyStr.

Lemma has_char_app c a b :
  has_char c (a +:+ b) = has_char c a || has_char c b.
Proof.
  induction a as [|x a IH]; simpl; [reflexivity |].
  now rewrite IH, orb_assoc.
Qed.

(** Inside single quotes every character up to the closing quote is
    taken literally. *)
Lemma lex_single_quoted body :
  has_char squote body = false ->
  forall tok quoted acc rest,
    Shlex.lex (Shlex.InQuote squote) tok quoted acc (body +:+ String squote rest)
    = Shlex.lex Shlex.InWord (tok +:+ body) true acc rest.
Proof.
  induction body as [|c body IH]; intros Hq tok quoted acc rest.
  - simpl. now rewrite append_nil_r.
  - simpl in Hq. apply orb_false_iff in Hq as [Hc Hb].
    change (String c body +:+ String squote rest)
      with (String c (body +:+ String squote rest)).
    simpl Shlex.lex. rewrite Hc, andb_false_r.
    rewrite (IH Hb). unfold Shlex.snoc. now rewrite append_assoc.
Qed.

Lemma escape_char_quote c :
  has_char squote (Json.escape_char c) = Ascii.eqb c squote.
Proof.
  destruct c as [[] [] [] [] [] [] [] []]; vm_compute; reflexivity.
Qed.

Lemma escape_quote s :
  has_char squote (Json.escape s) = has_char squote s.
Proof.
  induction s as [|c s IH]; [reflexivity |].
  simpl Json.escape. rewrite has_char_app, escape_char_quote, IH. reflexivity.
Qed.

(** The serialised document holds a single quote only if the
    configured value does. *)
Lemma dumps_network_quote v :
  has_char squote (Json.dumps_network v)
  = match v with Some s => has_char squote s | None => false end.
Proof.
  unfold Json.dumps_network, Json.dumps_value, Json.quote.
  destruct v as [s|].
  - simpl. rewrite !has_char_app. simpl.
    now rewrite escape_quote, !orb_false_r.
  - reflexivity.
Qed.

Lemma split_network_command conn data :
  has_char squote conn = false ->
  has_char squote data = false ->
  Shlex.split (network_command conn data) = Ok (network_argv conn data).
Proof.
  intros Hc Hd. unfold network_command, Shlex.split.
  rewrite !append_assoc. simpl.
  rewrite (lex_single_quoted conn Hc). simpl.
  rewrite (lex_single_quoted data Hd). simpl.
  unfold Shlex.emit. now rewrite !orb_true_r.
Qed.

End ShlexFacts.

(** * Laws of the handler monad *)

Lemma prepend_nil {A} (o : outcome A) : prepend [] o = o.
Proof. now destruct o. Qed.

Lemma prepend_prepend {A} ev1 ev2 (o : outcome A) :
  prepend ev1 (prepend ev2 o) = prepend (ev1 ++ ev2) o.
Proof. unfold prepend. simpl. now rewrite app_assoc. Qed.

Lemma bind_unfold {A B} (m : M A) (k : A -> M B) w s :
  bind m k w s
  = match res (m w s) with
    | Ok a => prepend (events (m w s)) (k a w (final (m w s)))
    | Raise e => Outcome (Raise e) (final (m w s)) (events (m w s))
    end.
Proof. reflexivity. Qed.

Lemma bind_ask {A B} (f : world -> A) (k : A -> M B) w s :
  bind (ask f) k w s = k (f w) w s.
Proof. rewrite bind_unfold. simpl. apply prepend_nil. Qed.

Lemma bind_get {A B} (f : state -> A) (k : A -> M B) w s :
  bind (get f) k w s = k (f s) w s.
Proof. rewrite bind_unfold. simpl. apply prepend_nil. Qed.

Lemma bind_ret {A B} (a : A) (k : A -> M B) w s : bind (ret a) k w s = k a w s.
Proof. rewrite bind_unfold. simpl. apply prepend_nil. Qed.

Lemma bind_raise {A B} e (k : A -> M B) w s :
  bind (raise e) k w s = Outcome (Raise e) s [].
Proof. reflexivity. Qed.

Lemma bind_tell {B} e (k : unit -> M B) w s :
  bind (tell e) k w s = prepend [e] (k tt w s).
Proof. reflexivity. Qed.

Lemma bind_modify {B} f (k : unit -> M B) w s :
  bind (modify f) k w s = k tt w (f s).
Proof. rewrite bind_unfold. simpl. apply prepend_nil. Qed.

Lemma bind_status_set {B} a b (k : unit -> M B) w s :
  bind (status_set a b) k w s
  = prepend [StatusSet a b] (k tt w (with_status (a, b) s)).
Proof.
  unfold status_set. rewrite bind_unfold. simpl.
  unfold prepend. simpl. reflexivity.
Qed.

Lemma bind_assoc {A B C} (m : M A) (f : A -> M B) (g : B -> M C) w s :
  bind (bind m f) g w s = bind m (fun x => bind (f x) g) w s.
Proof.
  unfold bind.
  destruct (m w s) as [[a|e] s1 ev1]; simpl; [|reflexivity].
  destruct (f a w s1) as [[b|e] s2 ev2]; simpl; [|reflexivity].
  now rewrite app_assoc.
Qed.

(** A successful [check_call] only leaves its trace. *)
Lemma bind_check_call_ok {B} argv (k : unit -> M B) w s :
  exit_status w argv = 0%Z ->
  bind (check_call argv) k w s = prepend [Call argv] (k tt w s).
Proof.
  intros H. unfold check_call. rewrite bind_assoc, bind_tell, bind_assoc, bind_ask.
  rewrite H. simpl. now rewrite bind_ret.
Qed.

Lemma bind_check_call_fail {B} argv (k : unit -> M B) w s :
  exit_status w argv <> 0%Z ->
  bind (check_call argv) k w s
  = Outcome (Raise (CalledProcessError argv (exit_status w argv))) s [Call argv].
Proof.
  intros H. unfold check_call. rewrite bind_assoc, bind_tell, bind_assoc, bind_ask.
  destruct (Z.eqb_spec (exit_status w argv) 0); [contradiction | reflexivity].
Qed.

(** * The handlers, one by one *)

Section ConfigureNetwork.

Import PyStr.

(** The part of claim C1 that does not hold: a failing [etcdctl] leaves
    the flag unset, and a single quote in the value breaks the command
    line before anything is run. *)
Lemma configure_network_not_always :
  (let o := configure_network (failing_world 1) empty_state in
   res o = Raise (CalledProcessError
                    (network_argv "https://10.0.0.5:2379"
                                  (Json.dumps_network (Some "10.1.0.0/16"))) 1)
   /\ "flannel.network.configured" ∉ flags (final o))
  /\
  (let w := configured_world (fun _ => Some "10.1.0.0/16'") in
   let o := configure_network w empty_state in
   res o = Raise (ValueError "No closing quotation")
   /\ events o = []
   /\ "flannel.network.configured" ∉ flags (final o)).
Proof.
  split; cbv zeta.
  - split; [vm_compute; reflexivity |].
    replace (final (configure_network (failing_world 1) empty_state))
      with empty_state by (vm_compute; reflexivity).
    simpl. set_solver.
  - split; [vm_compute; reflexivity |].
    split; [vm_compute; reflexivity |].
    match goal with |- _ ∉ flags (final ?o) =>
      replace (final o) with empty_state by (vm_compute; reflexivity) end.
    simpl. set_solver.
Qed.

(** Claim C1, amended: for a connection string and a cidr value without
    single quotes, [configure_network] runs exactly one command, the
    [etcdctl ... set /coreos.com/network/config <document>] with the
    endpoint and the three TLS files; when it exits with status 0 the
    flag [flannel.network.configured] is set afterwards, and otherwise
    [CalledProcessError] leaves the handler with the state untouched. *)
Theorem configure_network_spec (w : world) (s : state) :
  has_char squote (get_connection_string w) = false ->
  (forall cidr, config w "cidr" = Some cidr -> has_char squote cidr = false) ->
  let argv := network_argv (get_connection_string w)
                           (Json.dumps_network (config w "cidr")) in
  let o := configure_network w s in
  events o = [Call argv]
  /\ (exit_status w argv = 0%Z ->
      res o = Ok tt
      /\ final o = with_flags (fun fl => {["flannel.network.configured"]} ∪ fl) s)
  /\ (exit_status w argv <> 0%Z ->
      res o = Raise (CalledProcessError argv (exit_status w argv))
      /\ final o = s).
Proof.
  intros Hconn Hcidr argv o.
  assert (Hdata : has_char squote (Json.dumps_network (config w "cidr")) = false).
  { rewrite dumps_network_quote. destruct (config w "cidr") as [c|] eqn:E; auto. }
  pose proof (split_network_command _ _ Hconn Hdata) as Hsplit.
  subst o. unfold configure_network, bind, ask, split, lift. simpl.
  rewrite Hsplit. fold argv. simpl.
  destruct (Z.eqb_spec (exit_status w argv) 0) as [E|E]; simpl.
  - split; [reflexivity |]. split; [intros _; split; reflexivity | contradiction].
  - split; [reflexivity |]. split; [contradiction | intros _; split; reflexivity].
Qed.

Lemma configure_network_spec_witness :
  let w := sample_world in
  let argv := network_argv (get_connection_string w)
                           (Json.dumps_network (config w "cidr")) in
  let o := configure_network w empty_state in
  events o = [Call argv]
  /\ (exit_status w argv = 0%Z ->
      res o = Ok tt
      /\ final o = with_flags (fun fl => {["flannel.network.configured"]} ∪ fl)
                              empty_state)
  /\ (exit_status w argv <> 0%Z ->
      res o = Raise (CalledProcessError argv (exit_status w argv))
      /\ final o = empty_state).
Proof.
  apply (configure_network_spec sample_world empty_state).
  - reflexivity.
  - intros cidr H. vm_compute in H. injection H as <-. reflexivity.
Defined.

End ConfigureNetwork.

Section InstallFlannelService.

Import PyStr.

Lemma default_interface_first (ls : list string) :
  (exists before line after field,
      ls = before ++ line :: after
      /\ Forall (fun l => ~ substring_of "default" l) before
      /\ substring_of "default" line
      /\ last_field_of space line field
      /\ default_interface ls = Some field)
  \/ (Forall (fun l => ~ substring_of "default" l) ls
      /\ default_interface ls = None).
Proof.
  induction ls as [|l ls IH]; [right; split; [constructor | reflexivity] |].
  simpl. destruct (contains "default" l) eqn:E.
  - left. exists [], l, ls, (last_field (split_on space l)).
    split; [reflexivity |]. split; [constructor |].
    split; [now apply contains_spec |].
    split; [apply last_field_split | reflexivity].
  - destruct IH as [(before & line & after & field & -> & Hb & Hl & Hf & Hd) | [Hall Hd]].
    + left. exists (l :: before), line, after, field.
      split; [reflexivity |].
      split; [constructor; [now apply contains_false | exact Hb] |].
      split; [exact Hl |]. split; [exact Hf | exact Hd].
    + right. split; [constructor; [now apply contains_false | exact Hall] | exact Hd].
Qed.

(** The loop of the handler computes the interface the [route] output
    names, and nothing else does. *)
Lemma default_interface_complete out :
  default_interface_is out (default_interface (split_on newline out)).
Proof.
  exists (split_on newline out). split; [apply split_on_lines |].
  destruct (default_interface_first (split_on newline out))
    as [(before & line & after & field & E & Hb & Hl & Hf & Hd) | [Hall Hd]].
  - left. exists before, line, after, field. rewrite Hd.
    split; [exact E |]. split; [exact Hb |]. split; [exact Hl |].
    split; [exact Hf | reflexivity].
  - right. rewrite Hd. split; [exact Hall | reflexivity].
Qed.

Lemma default_interface_sound out r :
  default_interface_is out r -> default_interface (split_on newline out) = r.
Proof.
  intros (ls & Hlines & H). rewrite (lines_of_unique _ _ Hlines).
  destruct H as [(before & line & after & field & -> & Hb & Hl & Hf & ->) | [Hall ->]].
  - clear Hlines. induction Hb as [|l before Hl' Hb IH].
    + simpl. rewrite (contains_true _ _ Hl).
      now rewrite (last_field_of_unique _ _ _ Hf).
    + simpl. now rewrite (not_substring _ _ Hl').
  - clear Hlines. induction Hall as [|l ls Hl Hall IH]; [reflexivity |].
    simpl. now rewrite (not_substring _ _ Hl).
Qed.

Lemma install_flannel_service_run w s :
  exit_status w ["route"] = 0%Z ->
  install_flannel_service w s
  = Outcome (Ok tt) (service_installed s)
      (service_events w
         (py_or (config w "iface")
                (default_interface (split_on newline (output_of w ["route"]))))).
Proof.
  intros H. unfold install_flannel_service, bind, check_output, bind, ask.
  simpl. rewrite H. reflexivity.
Qed.

(** Claim C2 as written fails when the [iface] option is set: the unit
    file is rendered for the configured interface, not for the one the
    [route] output names. *)
Lemma install_flannel_service_not_parsed :
  default_interface_is (output_of iface_world ["route"]) (Some "eth0")
  /\ events (install_flannel_service iface_world empty_state)
     = service_events iface_world (Some "eth1")
  /\ events (install_flannel_service iface_world empty_state)
     <> service_events iface_world (Some "eth0").
Proof.
  split; [|split].
  - replace (Some "eth0")
      with (default_interface (split_on newline (output_of iface_world ["route"])))
      by (vm_compute; reflexivity).
    apply default_interface_complete.
  - vm_compute; reflexivity.
  - vm_compute. discriminate.
Qed.

(** Claim C2, amended: for every output of a successful [route], the
    default interface is the last space-separated field of the first
    line containing [default] ([None] without such a line), and the unit
    file is rendered with the configured [iface] if that is truthy and
    with this default interface otherwise, together with the etcd
    connection string; the flag is set afterwards. *)
Theorem install_flannel_service_spec (w : world) (s : state) :
  exit_status w ["route"] = 0%Z ->
  exists parsed,
    default_interface_is (output_of w ["route"]) parsed
    /\ (forall p, default_interface_is (output_of w ["route"]) p -> p = parsed)
    /\ let o := install_flannel_service w s in
       events o = service_events w (py_or (config w "iface") parsed)
       /\ res o = Ok tt
       /\ final o = service_installed s.
Proof.
  intros H.
  exists (default_interface (split_on newline (output_of w ["route"]))).
  split; [apply default_interface_complete |].
  split; [intros p Hp; symmetry; now apply default_interface_sound |].
  rewrite (install_flannel_service_run w s H). simpl. auto.
Qed.

Lemma install_flannel_service_spec_witness :
  exists parsed,
    default_interface_is (output_of sample_world ["route"]) parsed
    /\ (forall p, default_interface_is (output_of sample_world ["route"]) p
                  -> p = parsed)
    /\ let o := install_flannel_service sample_world empty_state in
       events o = service_events sample_world (py_or (config sample_world "iface") parsed)
       /\ res o = Ok tt
       /\ final o = service_installed empty_state.
Proof.
  apply (install_flannel_service_spec sample_world empty_state). reflexivity.
Defined.

(** Claim C9: a truthy [iface] option is what the unit file is rendered
    with, whatever [route] printed; the interface parsed from the
    [route] output is used exactly when the option is unset or empty. *)
Theorem install_flannel_service_iface (w : world) (s : state) :
  exit_status w ["route"] = 0%Z ->
  let o := install_flannel_service w s in
  res o = Ok tt
  /\ (forall v, config w "iface" = Some v -> v <> EmptyString ->
       events o = service_events w (Some v))
  /\ (falsy (config w "iface") = true ->
       forall parsed, default_interface_is (output_of w ["route"]) parsed ->
       events o = service_events w parsed).
Proof.
  intros H. rewrite (install_flannel_service_run w s H). simpl.
  split; [reflexivity |]. split.
  - intros v Hv Hne. rewrite Hv. unfold py_or, falsy.
    destruct v; [contradiction | reflexivity].
  - intros Hf parsed Hp. unfold py_or. rewrite Hf.
    now rewrite (default_interface_sound _ _ Hp).
Qed.

Lemma install_flannel_service_iface_witness :
  let o := install_flannel_service iface_world empty_state in
  res o = Ok tt
  /\ (forall v, config iface_world "iface" = Some v -> v <> EmptyString ->
       events o = service_events iface_world (Some v))
  /\ (falsy (config iface_world "iface") = true ->
       forall parsed, default_interface_is (output_of iface_world ["route"]) parsed ->
       events o = service_events iface_world parsed).
Proof.
  apply (install_flannel_service_iface iface_world empty_state). reflexivity.
Defined.

End InstallFlannelService.

Section SetFlannelVersion.

Import PyStr.

Lemma split_version_command :
  Shlex.split "flanneld -version" = Ok version_argv.
Proof. reflexivity. Qed.

Lemma set_flannel_version_run w s :
  exit_status w version_argv = 0%Z ->
  set_flannel_version w s
  = let out := output_of w version_argv in
    let v := strip (last_field (split_on "v"%char out)) in
    if truthy out then
      Outcome (Ok tt)
        (State ({["flannel.version.set"]} ∪ flags s) (Some version_status)
               (Some v) (files s))
        [ StatusSet "maintenance" "Setting flannel version.";
          Call version_argv; ApplicationVersionSet v ]
    else
      Outcome (Ok tt) (with_status version_status s)
        [ StatusSet "maintenance" "Setting flannel version."; Call version_argv ].
Proof.
  intros H. unfold set_flannel_version, split.
  rewrite split_version_command.
  unfold bind, check_output, bind, ask, lift. simpl. rewrite H. simpl.
  destruct (truthy (output_of w version_argv)); reflexivity.
Qed.

Lemma version_of_complete out :
  version_of out (strip (last_field (split_on "v"%char out))).
Proof.
  exists (last_field (split_on "v"%char out)).
  split; [apply last_field_split | apply strip_stripped].
Qed.

Lemma version_of_sound out v :
  version_of out v -> strip (last_field (split_on "v"%char out)) = v.
Proof.
  intros (tail & Ht & Hs).
  rewrite (last_field_of_unique _ _ _ Ht). now apply stripped_unique.
Qed.

(** Claim C7 as written fails on an output without the letter [v]:
    nothing follows a last [v], and yet a version is reported. *)
Lemma set_flannel_version_without_v :
  let out := "0.5.5" +:+ String newline EmptyString in
  let o := set_flannel_version (version_world out) empty_state in
  out <> EmptyString
  /\ (~ exists pre tail, out = pre +:+ String "v" tail)
  /\ events o = [ StatusSet "maintenance" "Setting flannel version.";
                  Call version_argv; ApplicationVersionSet "0.5.5" ].
Proof.
  cbv zeta. split; [discriminate |]. split.
  - intros (pre & tail & H).
    assert (Hv : has_char "v" ("0.5.5" +:+ String newline EmptyString) = true).
    { rewrite H, has_char_app. simpl. now rewrite orb_true_r. }
    vm_compute in Hv. discriminate.
  - vm_compute. reflexivity.
Qed.

(** Claim C7, amended: for a non-empty output of a successful
    [flanneld -version] the version reported is what follows the last
    [v] of the output, or the whole output when it holds no [v], with the
    surrounding white space stripped, and the flag [flannel.version.set]
    is set; for an empty output no version is reported and no flag is
    set. *)
Theorem set_flannel_version_spec (w : world) (s : state) :
  exit_status w version_argv = 0%Z ->
  let out := output_of w version_argv in
  let o := set_flannel_version w s in
  res o = Ok tt
  /\ (out <> EmptyString ->
      exists v,
        version_of out v
        /\ (forall v', version_of out v' -> v' = v)
        /\ events o = [ StatusSet "maintenance" "Setting flannel version.";
                        Call version_argv; ApplicationVersionSet v ]
        /\ app_version (final o) = Some v
        /\ flags (final o) = {["flannel.version.set"]} ∪ flags s)
  /\ (out = EmptyString ->
      events o = [ StatusSet "maintenance" "Setting flannel version.";
                   Call version_argv ]
      /\ app_version (final o) = app_version s
      /\ flags (final o) = flags s).
Proof.
  intros H out o. subst o. rewrite (set_flannel_version_run w s H).
  cbv zeta. fold out. destruct out as [|c out'] eqn:E; simpl.
  - split; [reflexivity |]. split; [intros Hne; contradiction | auto].
  - split; [reflexivity |]. split; [| intros Hne; discriminate].
    intros _. eexists. split; [apply (version_of_complete (String c out')) |].
    split; [intros v' Hv'; symmetry; now apply version_of_sound |].
    auto.
Qed.

Lemma set_flannel_version_spec_witness :
  let w := sample_world in
  let out := output_of w version_argv in
  let o := set_flannel_version w empty_state in
  res o = Ok tt
  /\ (out <> EmptyString ->
      exists v,
        version_of out v
        /\ (forall v', version_of out v' -> v' = v)
        /\ events o = [ StatusSet "maintenance" "Setting flannel version.";
                        Call version_argv; ApplicationVersionSet v ]
        /\ app_version (final o) = Some v
        /\ flags (final o) = {["flannel.version.set"]} ∪ flags empty_state)
  /\ (out = EmptyString ->
      events o = [ StatusSet "maintenance" "Setting flannel version.";
                   Call version_argv ]
      /\ app_version (final o) = app_version empty_state
      /\ flags (final o) = flags empty_state).
Proof.
  apply (set_flannel_version_spec sample_world empty_state). reflexivity.
Defined.

Example sample_version :
  events (set_flannel_version sample_world empty_state)
  = [ StatusSet "maintenance" "Setting flannel version.";
      Call version_argv; ApplicationVersionSet "0.7.0" ].
Proof. vm_compute. reflexivity. Qed.

End SetFlannelVersion.

Section InstallFlannelBinaries.

(** A run of commands that all succeed. *)
Lemma calls_succeed w s (cmds : list (list string)) :
  Forall (fun c => exit_status w c = 0%Z) cmds ->
  for_each cmds check_call w s = Outcome (Ok tt) s (map Call cmds).
Proof.
  intros H. revert s. induction H as [|c cmds Hc Hall IH]; intros s.
  - reflexivity.
  - simpl. unfold bind at 1. unfold check_call at 1, bind, tell, ask. simpl.
    rewrite Hc. simpl. rewrite IH. reflexivity.
Qed.

(** A run of commands stops at the first that fails. *)
Lemma calls_fail w s (before : list (list string)) c rest :
  Forall (fun c => exit_status w c = 0%Z) before ->
  exit_status w c <> 0%Z ->
  for_each (before ++ c :: rest) check_call w s
  = Outcome (Raise (CalledProcessError c (exit_status w c))) s
            (map Call (before ++ [c])).
Proof.
  intros H Hc. revert s. induction H as [|d before Hd Hall IH]; intros s.
  - simpl. unfold bind at 1. unfold check_call at 1, bind, tell, ask. simpl.
    destruct (Z.eqb_spec (exit_status w c) 0); [contradiction | reflexivity].
  - simpl. unfold bind at 1. unfold check_call at 1, bind, tell, ask. simpl.
    rewrite Hd. simpl. rewrite IH. reflexivity.
Qed.

Lemma install_loop w s unpack_path :
  for_each apps (install_one unpack_path) w s
  = for_each (install_commands unpack_path) check_call w s.
Proof. reflexivity. Qed.

Lemma blocked_run message w s :
  blocked message w s = blocked_outcome message s.
Proof.
  unfold blocked, log. rewrite bind_tell.
  unfold status_set. rewrite bind_unfold. reflexivity.
Qed.

Lemma install_flannel_binaries_small w s archive size :
  resource_get w "flannel" = Ok (Some archive) ->
  archive <> EmptyString ->
  st_size w archive = Some size ->
  (size < 1000000)%Z ->
  install_flannel_binaries w s = blocked_outcome "Incomplete flannel resource" s.
Proof.
  intros Hres Hne Hsize Hsmall.
  unfold install_flannel_binaries. rewrite bind_ask, Hres.
  destruct archive as [|a archive]; [contradiction |].
  change (negb (PyStr.truthy (String a archive))) with false. cbv iota.
  rewrite bind_ask, Hsize.
  destruct (Z.ltb_spec size 1000000) as [_|Hge]; [apply blocked_run | lia].
Qed.

(** The handler from the size check on, as one run of commands. *)
Lemma install_flannel_binaries_unpack w s archive size charm_dir :
  resource_get w "flannel" = Ok (Some archive) ->
  archive <> EmptyString ->
  st_size w archive = Some size ->
  (1000000 <= size)%Z ->
  getenv w "CHARM_DIR" = Some charm_dir ->
  let unpack_path := unpack_dir charm_dir in
  let o := for_each (tar_argv archive unpack_path :: install_commands unpack_path)
                    check_call w (unpacking unpack_path s) in
  install_flannel_binaries w s
  = prepend (unpack_events archive unpack_path)
      match res o with
      | Ok _ =>
          Outcome (Ok tt)
            (with_flags (fun fl => {["flannel.binaries.installed"]} ∪ fl) (final o))
            (events o)
      | Raise e => Outcome (Raise e) (final o) (events o)
      end.
Proof.
  intros Hres Hne Hsize Hbig Hdir unpack_path o.
  unfold install_flannel_binaries. rewrite bind_ask, Hres.
  destruct archive as [|a archive]; [contradiction |].
  change (negb (PyStr.truthy (String a archive))) with false. cbv iota.
  rewrite bind_ask, Hsize.
  destruct (Z.ltb_spec size 1000000) as [Hlt|_]; [lia |].
  rewrite bind_status_set, bind_ask, Hdir.
  unfold makedirs, log_argv.
  rewrite bind_assoc, bind_tell, bind_modify, bind_tell.
  rewrite !prepend_prepend. rewrite <- bind_assoc.
  change (unpack_events (String a archive) unpack_path)
    with ([StatusSet "maintenance" "Unpacking flannel resource."]
            ++ [Makedirs unpack_path]
            ++ [LogArgv (tar_argv (String a archive) unpack_path)]).
  f_equal. rewrite bind_unfold.
  change ((check_call ["tar"; "xfz"; String a archive; "-C";
                       PosixPath.join charm_dir ["files"; "flannel"]] ;;;
           for_each apps (install_one (PosixPath.join charm_dir ["files"; "flannel"])))
            w (with_files (fun fs => {[PosixPath.join charm_dir ["files"; "flannel"]]} ∪ fs)
                 (with_status ("maintenance", "Unpacking flannel resource.") s)))
    with o.
  destruct (res o); [|reflexivity].
  unfold set_state, modify, prepend. simpl. now rewrite app_nil_r.
Qed.

(** Claim C6 as written fails on an archive of sufficient size that
    [tar] cannot unpack: the error leaves the handler, nothing is
    installed and the flag is not set. *)
Lemma install_flannel_binaries_tar_fails :
  let w := failing_world 2 in
  let archive := "/var/lib/juju/resources/flannel.tar.gz" in
  let unpack_path := unpack_dir "/var/lib/juju/agents/unit-flannel-0/charm" in
  let o := install_flannel_binaries w empty_state in
  resource_get w "flannel" = Ok (Some archive)
  /\ st_size w archive = Some 2000000%Z
  /\ res o = Raise (CalledProcessError (tar_argv archive unpack_path) 2)
  /\ events o = unpack_events archive unpack_path
                ++ [Call (tar_argv archive unpack_path)]
  /\ flags (final o) = ∅.
Proof. cbv zeta. repeat split; vm_compute; reflexivity. Qed.

(** Claim C6, amended: the archive is checked by its size only.  Below
    1000000 bytes the handler logs, reports [blocked] with
    [Incomplete flannel resource] and returns, with nothing run and no
    flag set.  From that size on it runs [tar] and then [install] for
    each of the five binaries, to the fixed destinations, in order; when
    all six commands exit with status 0 the flag is set, and at the
    first that does not, [CalledProcessError] leaves the handler, the
    remaining commands are not run and the flag is not set. *)
Theorem install_flannel_binaries_spec (w : world) (s : state) archive size :
  resource_get w "flannel" = Ok (Some archive) ->
  archive <> EmptyString ->
  st_size w archive = Some size ->
  let o := install_flannel_binaries w s in
  ((size < 1000000)%Z ->
   o = Outcome (Ok tt) (with_status ("blocked", "Incomplete flannel resource") s)
         [ Log "Incomplete flannel resource";
           StatusSet "blocked" "Incomplete flannel resource" ])
  /\ ((1000000 <= size)%Z ->
      forall charm_dir, getenv w "CHARM_DIR" = Some charm_dir ->
      let unpack_path := unpack_dir charm_dir in
      let cmds := tar_argv archive unpack_path :: install_commands unpack_path in
      (Forall (fun c => exit_status w c = 0%Z) cmds ->
       o = Outcome (Ok tt)
             (with_flags (fun fl => {["flannel.binaries.installed"]} ∪ fl)
                         (unpacking unpack_path s))
             (unpack_events archive unpack_path ++ map Call cmds))
      /\ (forall before c rest,
            cmds = before ++ c :: rest ->
            Forall (fun c => exit_status w c = 0%Z) before ->
            exit_status w c <> 0%Z ->
            o = Outcome (Raise (CalledProcessError c (exit_status w c)))
                  (unpacking unpack_path s)
                  (unpack_events archive unpack_path ++ map Call (before ++ [c])))).
Proof.
  intros Hres Hne Hsize o. subst o. split.
  - intros Hsmall.
    now rewrite (install_flannel_binaries_small w s archive size).
  - intros Hbig charm_dir Hdir unpack_path cmds.
    rewrite (install_flannel_binaries_unpack w s archive size charm_dir)
      by assumption.
    fold unpack_path. fold cmds. split.
    + intros Hall. rewrite (calls_succeed _ _ _ Hall). reflexivity.
    + intros before c rest Hcmds Hall Hc.
      rewrite Hcmds, (calls_fail _ _ _ _ _ Hall Hc). reflexivity.
Qed.

Lemma install_flannel_binaries_spec_witness :
  let w := sample_world in
  let archive := "/var/lib/juju/resources/flannel.tar.gz" in
  let o := install_flannel_binaries w empty_state in
  ((2000000 < 1000000)%Z ->
   o = Outcome (Ok tt)
         (with_status ("blocked", "Incomplete flannel resource") empty_state)
         [ Log "Incomplete flannel resource";
           StatusSet "blocked" "Incomplete flannel resource" ])
  /\ ((1000000 <= 2000000)%Z ->
      forall charm_dir, getenv w "CHARM_DIR" = Some charm_dir ->
      let unpack_path := unpack_dir charm_dir in
      let cmds := tar_argv archive unpack_path :: install_commands unpack_path in
      (Forall (fun c => exit_status w c = 0%Z) cmds ->
       o = Outcome (Ok tt)
             (with_flags (fun fl => {["flannel.binaries.installed"]} ∪ fl)
                         (unpacking unpack_path empty_state))
             (unpack_events archive unpack_path ++ map Call cmds))
      /\ (forall before c rest,
            cmds = before ++ c :: rest ->
            Forall (fun c => exit_status w c = 0%Z) before ->
            exit_status w c <> 0%Z ->
            o = Outcome (Raise (CalledProcessError c (exit_status w c)))
                  (unpacking unpack_path empty_state)
                  (unpack_events archive unpack_path ++ map Call (before ++ [c])))).
Proof.
  apply (install_flannel_binaries_spec sample_world empty_state
           "/var/lib/juju/resources/flannel.tar.gz" 2000000).
  - reflexivity.
  - discriminate.
  - reflexivity.
Defined.

(** On the sample host the whole step goes through. *)
Example install_flannel_binaries_sample :
  let o := install_flannel_binaries sample_world empty_state in
  res o = Ok tt
  /\ map (fun c => List.last c EmptyString)
         (install_commands (unpack_dir "/charm"))
     = [ "/usr/local/bin/flanneld"; "/usr/local/bin/etcdctl";
         "/opt/cni/bin/flannel"; "/opt/cni/bin/bridge"; "/opt/cni/bin/host-local" ]
  /\ is_set (flags (final o)) "flannel.binaries.installed" = true.
Proof. cbv zeta. repeat split; vm_compute; reflexivity. Qed.

(** A resource below the size limit. *)
Example install_flannel_binaries_incomplete :
  install_flannel_binaries (sized_world 999999) empty_state
  = blocked_outcome "Incomplete flannel resource" empty_state.
Proof.
  apply (install_flannel_binaries_small _ _
           "/var/lib/juju/resources/flannel.tar.gz" 999999);
    [reflexivity | discriminate | reflexivity | lia].
Qed.

End InstallFlannelBinaries.

Section CleanupDeployment.

Lemma check_call_run argv w s :
  check_call argv w s
  = if (exit_status w argv =? 0)%Z
    then Outcome (Ok tt) s [Call argv]
    else Outcome (Raise (CalledProcessError argv (exit_status w argv))) s [Call argv].
Proof.
  unfold check_call. rewrite bind_tell, bind_ask.
  destruct (exit_status w argv =? 0)%Z; reflexivity.
Qed.

(** The interface is removed, or the failure is caught and logged; the
    state is untouched either way. *)
Lemma interface_removal_run w s :
  try_except
    (argv <- split "ip link set flannel.1 down" ;; check_call argv ;;;
     argv <- split "ip link delete flannel.1" ;; check_call argv)
    is_called_process_error
    (log "Unable to remove iface flannel.1" ;;;
     log "Potential indication that cleanup is not possible") w s
  = Outcome (Ok tt) s (interface_events w).
Proof.
  unfold try_except, split, interface_events.
  change (Shlex.split "ip link set flannel.1 down") with (Ok link_down).
  change (Shlex.split "ip link delete flannel.1") with (Ok link_delete).
  unfold lift. rewrite bind_ret.
  destruct (Z.eqb_spec (exit_status w link_down) 0) as [Hd|Hd].
  - rewrite (bind_check_call_ok _ _ _ _ Hd), bind_ret, check_call_run.
    destruct (exit_status w link_delete =? 0)%Z; reflexivity.
  - rewrite (bind_check_call_fail _ _ _ _ Hd). reflexivity.
Qed.

Lemma removal_events_cons y l (fs : gset string) :
  removal_events (y :: l) fs
  = (if bool_decide (y ∈ fs) then [Log ("Removing " +:+ y); Remove y] else [])
      ++ removal_events l fs.
Proof. reflexivity. Qed.

Lemma removal_events_other l x (fs : gset string) :
  x ∉ l -> removal_events l (fs ∖ {[x]}) = removal_events l fs.
Proof.
  induction l as [|y l IH]; [reflexivity |].
  intros Hx. apply not_elem_of_cons in Hx as [Hxy Hxl].
  rewrite !removal_events_cons, (IH Hxl). f_equal.
  destruct (decide (y ∈ fs)) as [Hy|Hy].
  - rewrite !bool_decide_eq_true_2; [reflexivity | assumption | set_solver].
  - rewrite !bool_decide_eq_false_2; [reflexivity | assumption | set_solver].
Qed.

(** The loop over the files removes those that are present, and only
    those. *)
Lemma remove_files_run (l : list string) w s :
  NoDup l ->
  for_each l remove_if_exists w s
  = Outcome (Ok tt)
      (State (flags s) (status s) (app_version s) (files s ∖ list_to_set l))
      (removal_events l (files s)).
Proof.
  intros Hnd. revert s. induction Hnd as [|x l Hx Hnd IH]; intros s.
  - simpl. unfold ret. destruct s as [fl st v fs]. simpl. f_equal. f_equal.
    set_solver.
  - simpl for_each. unfold remove_if_exists at 1, path_exists.
    rewrite bind_assoc, bind_get, removal_events_cons.
    destruct (decide (x ∈ files s)) as [Hin|Hout].
    + rewrite bool_decide_eq_true_2 by assumption.
      unfold log, os_remove. rewrite !bind_assoc, bind_tell, bind_assoc, bind_tell.
      rewrite bind_modify, IH. unfold prepend. simpl.
      rewrite (removal_events_other _ _ _ Hx). f_equal. f_equal. set_solver.
    + rewrite bool_decide_eq_false_2 by assumption.
      rewrite bind_ret, IH. simpl. f_equal. f_equal. set_solver.
Qed.

Lemma cleanup_files_known : list_to_set cleanup_files = known_files.
Proof. vm_compute. reflexivity. Qed.

Lemma cleanup_files_distinct : NoDup cleanup_files.
Proof.
  unfold cleanup_files. repeat (apply NoDup_cons; split);
    [vm_compute; set_solver.. | apply NoDup_nil_2].
Qed.

Lemma cleanup_deployment_run w s :
  cleanup_deployment w s
  = Outcome (Ok tt)
      (State (flags s) (status s) (app_version s) (files s ∖ known_files))
      (ServiceStop "flannel" :: interface_events w
         ++ removal_events cleanup_files (files s)).
Proof.
  unfold cleanup_deployment, service_stop.
  rewrite bind_tell, bind_unfold, interface_removal_run. cbn [res final events].
  rewrite (remove_files_run _ _ _ cleanup_files_distinct), cleanup_files_known.
  reflexivity.
Qed.




(** With the interface already gone the failure is logged and the files
    are removed. *)
Example cleanup_deployment_without_interface :
  let s := State ∅ None None {["/usr/local/bin/flanneld"; "/etc/hosts"]} in
  let o := cleanup_deployment (failing_world 1) s in
  res o = Ok tt
  /\ events o = [ ServiceStop "flannel"; Call link_down;
                  Log "Unable to remove iface flannel.1";
                  Log "Potential indication that cleanup is not possible";
                  Log "Removing /usr/local/bin/flanneld";
                  Remove "/usr/local/bin/flanneld" ]
  /\ elements (files (final o)) = ["/etc/hosts"].
Proof. cbv zeta. repeat split; vm_compute; reflexivity. Qed.

End CleanupDeployment.

(** ** The upgrade-charm hook *)

Lemma is_set_true (fl : gset string) f : is_set fl f = true <-> f ∈ fl.
Proof. unfold is_set. apply bool_decide_eq_true. Qed.

Lemma is_set_false (fl : gset string) f : is_set fl f = false <-> f ∉ fl.
Proof. unfold is_set. apply bool_decide_eq_false. Qed.

(** Unfolds a guard into memberships. *)
Ltac guard_facts :=
  unfold guard, when, when_not, when_any in *; simpl in *;
  repeat match goal with
         | H : _ && _ = true |- _ => apply andb_true_iff in H as [? ?]
         | H : negb _ = true |- _ => apply negb_true_iff in H
         | H : is_set _ _ = true |- _ => apply is_set_true in H
         | H : is_set _ _ = false |- _ => apply is_set_false in H
         end;
  rewrite ?andb_true_iff, ?negb_true_iff, ?andb_true_r,
          ?is_set_true, ?is_set_false.

(** Claim C10: the upgrade-charm hook removes the flag
    [flannel.binaries.installed] and changes nothing else: every other
    flag, the status, the version and the files are as before, nothing is
    run, the installation of the binaries becomes eligible again and no
    other step does that was not eligible before. *)
Theorem reset_states_and_redeploy_spec (w : world) (s : state) :
  let o := hook_body upgrade_charm w s in
  res o = Ok tt
  /\ events o = []
  /\ flags (final o) = flags s ∖ {["flannel.binaries.installed"]}
  /\ (forall f, f <> "flannel.binaries.installed" ->
                (f ∈ flags (final o) <-> f ∈ flags s))
  /\ status (final o) = status s
  /\ app_version (final o) = app_version s
  /\ files (final o) = files s
  /\ guard h_install_flannel_binaries (flags (final o)) = true
  /\ (forall h, In h install_steps -> h <> h_install_flannel_binaries ->
                guard h (flags (final o)) = true -> guard h (flags s) = true).
Proof.
  cbv zeta. simpl.
  split; [reflexivity |]. split; [reflexivity |]. split; [reflexivity |].
  split; [intros f Hf; set_solver |].
  split; [reflexivity |]. split; [reflexivity |]. split; [reflexivity |].
  split.
  - guard_facts. set_solver.
  - intros h Hin Hne Hg.
    destruct h; try contradiction; guard_facts; try (repeat split; set_solver);
      simpl in Hin; intuition discriminate.
Qed.

(** ** The shape of a handler

    No handler reads the state: what it returns and what it emits
    depends on the world only, and what it does to the state is to add
    flags and files and to overwrite the status and the version. *)

Section Shape.

Lemma state_eq fl fl' st v fs fs' :
  fl = fl' -> fs = fs' -> State fl st v fs = State fl' st v fs'.
Proof. now intros -> ->. Qed.

Lemma apply_delta_idem d s : apply_delta d (apply_delta d s) = apply_delta d s.
Proof.
  unfold apply_delta. simpl.
  destruct (set_status d), (set_version d); apply state_eq; set_solver.
Qed.


(** A run of commands does not touch the state, and how it ends is
    decided by the exit statuses alone. *)
Lemma calls_shape w (cmds : list (list string)) :
  exists r done,
    (forall s, for_each cmds check_call w s = Outcome r s (map Call done))
    /\ (all_exit_zero w cmds = true -> r = Ok tt)
    /\ (all_exit_zero w cmds = false -> exists e, r = Raise e)
    /\ (exists rest, cmds = done ++ rest)
    /\ (forall e, r = Raise e ->
        exists before c,
          done = before ++ [c]
          /\ e = CalledProcessError c (exit_status w c)
          /\ exit_status w c <> 0%Z).
Proof.
  induction cmds as [|c cmds (r & done & Hrun & Hok & Hfail & [rest Hrest] & Hraise)].
  - exists (Ok tt), []. split; [reflexivity |]. split; [reflexivity |].
    split; [discriminate |]. split; [now exists [] | discriminate].
  - destruct (Z.eqb_spec (exit_status w c) 0) as [Hc|Hc].
    + exists r, (c :: done). split.
      { intros s. simpl for_each.
        rewrite (bind_check_call_ok _ _ _ _ Hc), Hrun. reflexivity. }
      simpl. apply Z.eqb_eq in Hc. rewrite Hc. simpl.
      split; [exact Hok |]. split; [exact Hfail |].
      split; [exists rest; now rewrite Hrest |].
      intros e He. destruct (Hraise e He) as (before & c' & -> & He' & Hc').
      exists (c :: before), c'. now repeat split.
    + exists (Raise (CalledProcessError c (exit_status w c))), [c]. split.
      { intros s. simpl for_each. now rewrite (bind_check_call_fail _ _ _ _ Hc). }
      simpl. pose proof Hc as Hc'. apply Z.eqb_neq in Hc'. rewrite Hc'. simpl.
      split; [discriminate |]. split; [intros _; eexists; reflexivity |].
      split; [now exists cmds |].
      intros e He. injection He as <-. exists [], c. now repeat split.
Qed.

Lemma calls_app ev1 ev2 : calls (ev1 ++ ev2) = calls ev1 ++ calls ev2.
Proof. unfold calls. apply flat_map_app. Qed.

Lemma calls_map_call cmds : calls (map Call cmds) = cmds.
Proof. induction cmds as [|c cmds IH]; simpl; [reflexivity | now rewrite IH]. Qed.

Lemma quiet_app ev1 ev2 : quiet (ev1 ++ ev2) = quiet ev1 && quiet ev2.
Proof. unfold quiet. apply forallb_app. Qed.

Lemma quiet_map_call cmds : quiet (map Call cmds) = true.
Proof. induction cmds as [|c cmds IH]; simpl; [reflexivity | exact IH]. Qed.

Lemma install_commands_distinct archive unpack_path :
  NoDup (tar_argv archive unpack_path :: install_commands unpack_path).
Proof.
  unfold install_commands, install_argv, tar_argv.
  repeat (apply NoDup_cons_2;
          [rewrite ?elem_of_cons, elem_of_nil; intuition congruence |]).
  apply NoDup_nil_2.
Qed.

Lemma state_ext (a b : state) :
  flags a = flags b -> status a = status b ->
  app_version a = app_version b -> files a = files b -> a = b.
Proof. destruct a, b. simpl. now intros -> -> -> ->. Qed.

Lemma outcome_state {A} (r : result A) ev (a b : state) :
  a = b -> Outcome r a ev = Outcome r b ev.
Proof. now intros ->. Qed.

(** Closes [Outcome r s1 ev = Outcome r s2 ev] for states that differ
    by set algebra only. *)
Ltac same_state :=
  apply outcome_state; apply state_ext; simpl; try reflexivity; set_solver.

(** Closes [trace_ok] on a trace that is given in full. *)
Ltac trace_returns :=
  split; [simpl; repeat constructor; rewrite ?elem_of_cons, ?elem_of_nil;
          intuition congruence
         | intros ? ?; discriminate].

Ltac trace_raises prefix :=
  split; [simpl; repeat constructor; rewrite ?elem_of_cons, ?elem_of_nil;
          intuition congruence
         | let e := fresh "e" in let He := fresh "He" in
           intros e He; injection He as <-;
           split; [reflexivity
                  | simpl; try (split; [reflexivity |]; split; [assumption |]);
                    try (exists prefix; reflexivity); exact I]].

Lemma shape_install_flannel_binaries w :
  exists r ev d,
    (forall s, install_flannel_binaries w s = Outcome r (apply_delta d s) ev)
    /\ add_flags d = (if succeeds h_install_flannel_binaries w
                      then {["flannel.binaries.installed"]} else ∅)
    /\ (succeeds h_install_flannel_binaries w = true -> r = Ok tt)
    /\ trace_ok w r ev.
Proof.
  unfold succeeds.
  destruct (resource_get w "flannel") as [[archive|]|e] eqn:Hres.
  - destruct archive as [|a archive].
    { exists (Ok tt), [Log "Missing flannel resource.";
                       StatusSet "blocked" "Missing flannel resource."],
        (only_status "blocked" "Missing flannel resource.").
      split; [|split; [reflexivity | split; [discriminate | trace_returns]]].
      intros s. unfold install_flannel_binaries. rewrite bind_ask, Hres.
      change (negb (PyStr.truthy EmptyString)) with true. cbv iota.
      rewrite blocked_run. same_state. }
    set (arch := String a archive) in *.
    assert (Hne : arch <> EmptyString) by discriminate.
    change (PyStr.truthy arch) with true. cbv iota. rewrite andb_true_l.
    destruct (st_size w arch) as [size|] eqn:Hsize.
    2:{ exists (Raise OSError), [], no_change.
        split; [|split; [reflexivity | split; [discriminate | trace_raises (@nil event)]]].
        intros s. unfold install_flannel_binaries. rewrite bind_ask, Hres.
        change (negb (PyStr.truthy arch)) with false. cbv iota.
        rewrite bind_ask, Hsize. unfold raise. same_state. }
    destruct (Z.ltb_spec size 1000000) as [Hsmall|Hbig].
    { exists (Ok tt), [Log "Incomplete flannel resource";
                       StatusSet "blocked" "Incomplete flannel resource"],
        (only_status "blocked" "Incomplete flannel resource").
      replace (1000000 <=? size)%Z with false by (symmetry; apply Z.leb_gt; lia).
      split; [|split; [now destruct (getenv w "CHARM_DIR")
                      | split; [now destruct (getenv w "CHARM_DIR") | trace_returns]]].
      intros s. rewrite (install_flannel_binaries_small w s arch size) by assumption.
      unfold blocked_outcome. same_state. }
    destruct (getenv w "CHARM_DIR") as [charm_dir|] eqn:Hdir.
    2:{ exists (Raise TypeError), [StatusSet "maintenance" "Unpacking flannel resource."],
          (only_status "maintenance" "Unpacking flannel resource.").
        split; [|split; [reflexivity | split; [discriminate | trace_raises (@nil event)]]].
        intros s. unfold install_flannel_binaries. rewrite bind_ask, Hres.
        change (negb (PyStr.truthy arch)) with false. cbv iota.
        rewrite bind_ask, Hsize.
        destruct (Z.ltb_spec size 1000000) as [Hlt|_]; [lia |].
        rewrite bind_status_set, bind_ask, Hdir. unfold raise, prepend. simpl.
        same_state. }
    replace (1000000 <=? size)%Z with true by (symmetry; apply Z.leb_le; lia).
    rewrite andb_true_l.
    pose proof (install_commands_distinct arch (unpack_dir charm_dir)) as Hnd.
    destruct (calls_shape w (tar_argv arch (unpack_dir charm_dir)
                               :: install_commands (unpack_dir charm_dir)))
      as (r & done & Hrun & Hok & Hfail & [rest Hrest] & Hraise).
    assert (Hdone : NoDup (calls (unpack_events arch (unpack_dir charm_dir)
                                    ++ map Call done))).
    { rewrite calls_app, calls_map_call. simpl.
      rewrite Hrest in Hnd. now apply NoDup_app in Hnd as [Hnd _]. }
    destruct (all_exit_zero w _) eqn:Hall.
    + exists (Ok tt), (unpack_events arch (unpack_dir charm_dir) ++ map Call done),
        (Delta {["flannel.binaries.installed"]}
               (Some ("maintenance", "Unpacking flannel resource.")) None
               {[unpack_dir charm_dir]}).
      split; [|split; [reflexivity | split; [reflexivity |]]].
      * intros s.
        rewrite (install_flannel_binaries_unpack w s arch size charm_dir)
          by assumption.
        rewrite Hrun, (Hok eq_refl). reflexivity.
      * split; [exact Hdone | discriminate].
    + destruct (Hfail eq_refl) as [e He].
      exists (Raise e), (unpack_events arch (unpack_dir charm_dir) ++ map Call done),
        (Delta ∅ (Some ("maintenance", "Unpacking flannel resource.")) None
               {[unpack_dir charm_dir]}).
      split; [|split; [reflexivity | split; [discriminate |]]].
      * intros s.
        rewrite (install_flannel_binaries_unpack w s arch size charm_dir)
          by assumption.
        rewrite Hrun, He. unfold prepend. simpl. same_state.
      * split; [exact Hdone |]. intros e' He'. injection He' as <-.
        destruct (Hraise e He) as (before & c & -> & -> & Hc).
        split; [now rewrite quiet_app, quiet_map_call |].
        unfold raised_by. split; [reflexivity |]. split; [exact Hc |].
        exists (unpack_events arch (unpack_dir charm_dir) ++ map Call before).
        rewrite map_app, app_assoc. reflexivity.
  - exists (Ok tt), [Log "Missing flannel resource.";
                     StatusSet "blocked" "Missing flannel resource."],
      (only_status "blocked" "Missing flannel resource.").
    split; [|split; [reflexivity | split; [discriminate | trace_returns]]].
    intros s. unfold install_flannel_binaries. rewrite bind_ask, Hres.
    rewrite blocked_run. same_state.
  - exists (Ok tt), [Log "Error fetching the flannel resource.";
                     StatusSet "blocked" "Error fetching the flannel resource."],
      (only_status "blocked" "Error fetching the flannel resource.").
    split; [|split; [reflexivity | split; [discriminate | trace_returns]]].
    intros s. unfold install_flannel_binaries. rewrite bind_ask, Hres.
    rewrite blocked_run. same_state.
Qed.

Lemma bind_check_output_fail {B} argv (k : string -> M B) w s :
  exit_status w argv <> 0%Z ->
  bind (check_output argv) k w s
  = Outcome (Raise (CalledProcessError argv (exit_status w argv))) s [Call argv].
Proof.
  intros H. unfold check_output. rewrite bind_assoc, bind_tell, bind_assoc, bind_ask.
  destruct (Z.eqb_spec (exit_status w argv) 0); [contradiction | reflexivity].
Qed.

Lemma install_flannel_service_fail w s :
  exit_status w ["route"] <> 0%Z ->
  install_flannel_service w s
  = Outcome (Raise (CalledProcessError ["route"] (exit_status w ["route"])))
            (with_status ("maintenance", "Installing flannel service.") s)
            [StatusSet "maintenance" "Installing flannel service."; Call ["route"]].
Proof.
  intros H. unfold install_flannel_service.
  rewrite bind_status_set, (bind_check_output_fail _ _ _ _ H). reflexivity.
Qed.

Lemma set_flannel_version_fail w s :
  exit_status w version_argv <> 0%Z ->
  set_flannel_version w s
  = Outcome (Raise (CalledProcessError version_argv (exit_status w version_argv)))
            (with_status version_status s)
            [StatusSet "maintenance" "Setting flannel version."; Call version_argv].
Proof.
  intros H. unfold set_flannel_version, split.
  change (Shlex.split "flanneld -version") with (Ok version_argv).
  unfold lift. rewrite bind_status_set, bind_ret.
  rewrite (bind_check_output_fail _ _ _ _ H). reflexivity.
Qed.

Lemma configure_network_run w s :
  configure_network w s
  = match Shlex.split (network_command (get_connection_string w)
                                       (Json.dumps_network (config w "cidr"))) with
    | Ok argv =>
        if (exit_status w argv =? 0)%Z
        then Outcome (Ok tt)
               (with_flags (fun fl => {["flannel.network.configured"]} ∪ fl) s)
               [Call argv]
        else Outcome (Raise (CalledProcessError argv (exit_status w argv))) s
               [Call argv]
    | Raise e => Outcome (Raise e) s []
    end.
Proof.
  unfold configure_network, split. rewrite !bind_ask.
  destruct (Shlex.split _) as [argv|e]; unfold lift.
  - rewrite bind_ret.
    destruct (Z.eqb_spec (exit_status w argv) 0) as [H|H].
    + rewrite (bind_check_call_ok _ _ _ _ H). reflexivity.
    + now rewrite (bind_check_call_fail _ _ _ _ H).
  - reflexivity.
Qed.

(** The lexer raises nothing but [ValueError]. *)
Lemma lex_raises input st tok quoted acc e :
  Shlex.lex st tok quoted acc input = Raise e -> exists msg, e = ValueError msg.
Proof.
  revert st tok quoted acc.
  induction input as [|c rest IH]; intros st tok quoted acc H.
  - destruct st; simpl in H; try discriminate; injection H as <-;
      eexists; reflexivity.
  - destruct st as [| |q|[q|]]; simpl in H;
      repeat match type of H with
             | (if ?b then _ else _) = _ => destruct b
             end;
      eapply IH; exact H.
Qed.

(** Every handler is of that shape; its flag is what it adds, and it
    adds it exactly when it runs to its end. *)
Lemma body_shape h w :
  exists r ev d,
    (forall s, body h w s = Outcome r (apply_delta d s) ev)
    /\ add_flags d = (if succeeds h w then flag_set h else ∅)
    /\ (succeeds h w = true -> r = Ok tt)
    /\ trace_ok w r ev.
Proof.
  destruct h.
  - apply shape_install_flannel_binaries.
  - exists (Ok tt), [Render "10-flannel.conf" "/etc/cni/net.d/10-flannel.conf" []],
      (Delta {["flannel.cni.configured"]} None None
             {["/etc/cni/net.d/10-flannel.conf"]}).
    split; [reflexivity |]. split; [reflexivity |]. split; [reflexivity | trace_returns].
  - exists (Ok tt), [SaveClientCredentials ETCD_KEY_PATH ETCD_CERT_PATH ETCD_CA_PATH],
      (Delta {["flannel.etcd.credentials.installed"]} None None
             {[ETCD_KEY_PATH; ETCD_CERT_PATH; ETCD_CA_PATH]}).
    split; [reflexivity |]. split; [reflexivity |]. split; [reflexivity | trace_returns].
  - simpl body. unfold succeeds.
    destruct (Z.eqb_spec (exit_status w ["route"]) 0) as [H|H].
    + exists (Ok tt),
        (service_events w
           (py_or (config w "iface")
                  (default_interface
                     (PyStr.split_on PyStr.newline (output_of w ["route"]))))),
        (Delta {["flannel.service.installed"]}
               (Some ("maintenance", "Installing flannel service.")) None
               {["/lib/systemd/system/flannel.service"]}).
      split; [|split; [reflexivity | split; [reflexivity | trace_returns]]].
      intros s. now rewrite (install_flannel_service_run w s H).
    + exists (Raise (CalledProcessError ["route"] (exit_status w ["route"]))),
        [StatusSet "maintenance" "Installing flannel service."; Call ["route"]],
        (only_status "maintenance" "Installing flannel service.").
      split; [|split; [reflexivity | split; [discriminate |]]].
      * intros s. rewrite (install_flannel_service_fail w s H). same_state.
      * trace_raises [StatusSet "maintenance" "Installing flannel service."].
  - simpl body. unfold succeeds.
    destruct (Shlex.split _) as [argv|e] eqn:Hsplit.
    + destruct (Z.eqb_spec (exit_status w argv) 0) as [H|H].
      * exists (Ok tt), [Call argv],
          (Delta {["flannel.network.configured"]} None None ∅).
        split; [|split; [reflexivity | split; [reflexivity | trace_returns]]].
        intros s. rewrite configure_network_run, Hsplit.
        apply Z.eqb_eq in H. rewrite H. same_state.
      * exists (Raise (CalledProcessError argv (exit_status w argv))), [Call argv],
          no_change.
        split; [|split; [reflexivity | split; [discriminate |]]].
        -- intros s. rewrite configure_network_run, Hsplit.
           apply Z.eqb_neq in H. rewrite H. same_state.
        -- trace_raises (@nil event).
    + exists (Raise e), [], no_change.
      split; [|split; [reflexivity | split; [discriminate |]]].
      * intros s. rewrite configure_network_run, Hsplit. same_state.
      * split; [constructor |]. intros e' He'. injection He' as <-.
        split; [reflexivity |].
        pose proof Hsplit as Hv. unfold Shlex.split in Hv.
        destruct (lex_raises _ _ _ _ _ _ Hv) as [msg ->]. exact I.
  - exists (Ok tt), [StatusSet "maintenance" "Starting flannel service.";
                     ServiceStart "flannel"],
      (Delta {["flannel.service.started"]}
             (Some ("maintenance", "Starting flannel service.")) None ∅).
    split; [|split; [reflexivity | split; [reflexivity | trace_returns]]].
    intros s. unfold body, start_flannel_service, service_start.
    rewrite bind_status_set, bind_tell. unfold set_state, modify, prepend. simpl.
    same_state.
  - exists (Ok tt), [SetAvailable],
      (Delta {["flannel.cni.available"]} None None ∅).
    split; [|split; [reflexivity | split; [reflexivity | trace_returns]]].
    intros s. unfold body, set_available, set_available_on_cni.
    rewrite bind_tell. unfold set_state, modify, prepend. simpl. same_state.
  - simpl body. unfold succeeds.
    destruct (Z.eqb_spec (exit_status w version_argv) 0) as [H|H].
    + destruct (PyStr.truthy (output_of w version_argv)) eqn:Hout.
      * exists (Ok tt),
          [ StatusSet "maintenance" "Setting flannel version.";
            Call version_argv;
            ApplicationVersionSet
              (PyStr.strip (PyStr.last_field
                 (PyStr.split_on "v" (output_of w version_argv)))) ],
          (Delta {["flannel.version.set"]} (Some version_status)
                 (Some (PyStr.strip (PyStr.last_field
                          (PyStr.split_on "v" (output_of w version_argv))))) ∅).
        split; [|split; [reflexivity | split; [reflexivity | trace_returns]]].
        intros s. rewrite (set_flannel_version_run w s H). cbv zeta.
        rewrite Hout. same_state.
      * exists (Ok tt),
          [StatusSet "maintenance" "Setting flannel version."; Call version_argv],
          (only_status "maintenance" "Setting flannel version.").
        split; [|split; [reflexivity | split; [discriminate | trace_returns]]].
        intros s. rewrite (set_flannel_version_run w s H). cbv zeta.
        rewrite Hout. same_state.
    + exists (Raise (CalledProcessError version_argv (exit_status w version_argv))),
        [StatusSet "maintenance" "Setting flannel version."; Call version_argv],
        (only_status "maintenance" "Setting flannel version.").
      split; [|split; [reflexivity | split; [discriminate |]]].
      * intros s. rewrite (set_flannel_version_fail w s H). same_state.
      * trace_raises [StatusSet "maintenance" "Setting flannel version."].
  - exists (Ok tt), [StatusSet "active" "Flannel is active."],
      (only_status "active" "Flannel is active.").
    split; [|split; [reflexivity | split; [reflexivity | trace_returns]]].
    intros s. unfold body, ready, status_set. rewrite bind_tell.
    unfold modify, prepend. simpl. same_state.
  - exists (Ok tt), [StatusSet "waiting" "Waiting for etcd relation."],
      (only_status "waiting" "Waiting for etcd relation.").
    split; [|split; [reflexivity | split; [reflexivity | trace_returns]]].
    intros s. unfold body, halt_execution, status_set. rewrite bind_tell.
    unfold modify, prepend. simpl. same_state.
Qed.

End Shape.

(** ** Idempotence of the install steps *)

Lemma guard_own_flag h f (fl : gset string) :
  completion_flag h = Some f -> f ∈ fl -> guard h fl = false.
Proof.
  intros Hf Hin. destruct (guard h fl) eqn:Hg; [|reflexivity].
  exfalso. destruct h; simpl in Hf; try discriminate;
    injection Hf as <-; guard_facts; contradiction.
Qed.

Lemma install_step_flag h :
  In h install_steps -> exists f, completion_flag h = Some f.
Proof.
  intros Hin. destruct h; simpl in Hin;
    try (eexists; reflexivity); intuition discriminate.
Qed.

Lemma dispatch_idempotent h w s :
  final (dispatch h w (final (dispatch h w s))) = final (dispatch h w s).
Proof.
  destruct (body_shape h w) as (r & ev & d & Hrun & _ & _ & _).
  unfold dispatch. destruct (guard h (flags s)) eqn:Hg.
  - rewrite Hrun. cbn [final].
    destruct (guard h (flags (apply_delta d s))); [|reflexivity].
    rewrite Hrun. cbn [final]. apply apply_delta_idem.
  - simpl. now rewrite Hg.
Qed.

Lemma body_flags h w s :
  flags (final (body h w s))
  = (if succeeds h w then flag_set h ∪ flags s else flags s).
Proof.
  destruct (body_shape h w) as (r & ev & d & Hrun & Hadd & _ & _).
  rewrite Hrun. simpl. rewrite Hadd.
  destruct (succeeds h w); [reflexivity | set_solver].
Qed.

(** Claim C8: every install step is guarded by the absence of its
    completion flag, sets that flag exactly when it runs to its end,
    is not run again once the flag is set, and dispatched twice (on the
    same host) leaves the state it leaves when dispatched once. *)
Theorem install_steps_idempotent (h : handler) (w : world) (s : state) :
  In h install_steps ->
  exists f,
    completion_flag h = Some f
    /\ (guard h (flags s) = true -> f ∉ flags s)
    /\ flags (final (body h w s))
       = (if succeeds h w then {[f]} ∪ flags s else flags s)
    /\ (succeeds h w = true -> res (body h w s) = Ok tt)
    /\ (f ∈ flags s -> forall w', dispatch h w' s = Outcome (Ok tt) s [])
    /\ final (dispatch h w (final (dispatch h w s))) = final (dispatch h w s).
Proof.
  intros Hin. destruct (install_step_flag h Hin) as [f Hf].
  exists f. split; [exact Hf |]. split; [|split; [|split; [|split]]].
  - intros Hg Hfl. now rewrite (guard_own_flag h f _ Hf Hfl) in Hg.
  - rewrite body_flags. unfold flag_set. now rewrite Hf.
  - intros Hs. destruct (body_shape h w) as (r & ev & d & Hrun & _ & Hok & _).
    rewrite Hrun. simpl. now apply Hok.
  - intros Hfl w'. unfold dispatch. now rewrite (guard_own_flag h f _ Hf Hfl).
  - apply dispatch_idempotent.
Qed.

Lemma install_steps_idempotent_witness :
  exists f,
    completion_flag h_install_flannel_binaries = Some f
    /\ (guard h_install_flannel_binaries (flags empty_state) = true ->
        f ∉ flags empty_state)
    /\ flags (final (body h_install_flannel_binaries sample_world empty_state))
       = (if succeeds h_install_flannel_binaries sample_world
          then {[f]} ∪ flags empty_state else flags empty_state)
    /\ (succeeds h_install_flannel_binaries sample_world = true ->
        res (body h_install_flannel_binaries sample_world empty_state) = Ok tt)
    /\ (f ∈ flags empty_state ->
        forall w', dispatch h_install_flannel_binaries w' empty_state
                   = Outcome (Ok tt) empty_state [])
    /\ final (dispatch h_install_flannel_binaries sample_world
                (final (dispatch h_install_flannel_binaries sample_world empty_state)))
       = final (dispatch h_install_flannel_binaries sample_world empty_state).
Proof.
  apply (install_steps_idempotent h_install_flannel_binaries sample_world empty_state).
  simpl. left. reflexivity.
Defined.

(** The sample host installs the binaries; a second dispatch finds the
    flag and does nothing. *)
Example second_dispatch_skipped :
  let s1 := final (dispatch h_install_flannel_binaries sample_world empty_state) in
  succeeds h_install_flannel_binaries sample_world = true
  /\ events (dispatch h_install_flannel_binaries sample_world s1) = [].
Proof. cbv zeta. split; vm_compute; reflexivity. Qed.

(** ** The order of the steps *)

Section Order.

Lemma exec_app pre rest hist s :
  exec (pre ++ rest) hist s
  = let '(hist1, s1) := exec pre hist s in exec rest hist1 s1.
Proof.
  revert hist s. induction pre as [|[w a] pre IH]; intros hist s; [reflexivity |].
  simpl. destruct (perform w a s) as [es s']. apply IH.
Qed.

Lemma completion_flag_inj h h' f :
  completion_flag h = Some f -> completion_flag h' = Some f -> h = h'.
Proof. destruct h, h'; simpl; intros H H'; congruence. Qed.

Lemma relation_flag_foreign r h :
  completion_flag h <> Some (relation_flag_name r).
Proof. destruct r, h; simpl; congruence. Qed.

(** The guard of a handler asks for the flag of each step it requires. *)
Lemma guard_requires h (fl : gset string) q :
  guard h fl = true -> In q (requires h) ->
  exists f, completion_flag q = Some f /\ f ∈ fl.
Proof.
  intros Hg Hq.
  destruct h; simpl in Hq; try contradiction; guard_facts;
    repeat (destruct Hq as [<-|Hq]; [eexists; split; [reflexivity | assumption] |]);
    contradiction.
Qed.

Lemma needs_closed h p :
  In p (needs h) -> exists q, In q (requires h) /\ (p = q \/ In p (needs q)).
Proof.
  destruct h; simpl; try contradiction; intros Hp;
    repeat (destruct Hp as [<-|Hp];
            [first [ eexists; split; [left; reflexivity | left; reflexivity]
                   | eexists; split; [right; left; reflexivity | left; reflexivity]
                   | eexists; split; [right; right; left; reflexivity | left; reflexivity]
                   | eexists; split; [left; reflexivity | right; simpl; tauto]
                   | eexists; split; [right; left; reflexivity | right; simpl; tauto]
                   | eexists; split; [right; right; left; reflexivity | right; simpl; tauto] ] |]);
    contradiction.
Qed.

Lemma accounted_weaken hist es s s' :
  accounted hist s -> flags s' ⊆ flags s -> accounted (hist ++ es) s'.
Proof.
  intros Hacc Hsub h f Hf Hin p Hp.
  destruct (Hacc h f Hf (Hsub _ Hin) p Hp) as (e & He & Hc).
  exists e. split; [apply in_app_iff; now left | exact Hc].
Qed.

Lemma dispatch_accounted w h hist s :
  accounted hist s ->
  guard h (flags s) = true ->
  accounted (hist ++ [Entry h (res (body h w s)) (flags (final (body h w s)))])
            (final (body h w s)).
Proof.
  intros Hacc Hg h' f Hf Hin p Hp.
  destruct (decide (f ∈ flags s)) as [Hold|Hnew].
  { destruct (Hacc h' f Hf Hold p Hp) as (e & He & Hc).
    exists e. split; [apply in_app_iff; now left | exact Hc]. }
  pose proof (body_flags h w s) as Hflags.
  destruct (body_shape h w) as (r & ev & d & Hrun & _ & Hok & _).
  destruct (succeeds h w) eqn:Hs; [|rewrite Hflags in Hin; contradiction].
  assert (Hfh : completion_flag h = Some f).
  { rewrite Hflags in Hin. unfold flag_set in Hin.
    destruct (completion_flag h) as [g|]; [|set_solver].
    f_equal. set_solver. }
  assert (h' = h) as -> by (eapply completion_flag_inj; eassumption).
  destruct Hp as [-> | Hp].
  - eexists. split; [apply in_app_iff; right; left; reflexivity |].
    assert (Hres : res (body h w s) = Ok tt) by (rewrite Hrun; now apply Hok).
    unfold completed. cbn [returned ran flags_after]. rewrite Hres, Hfh.
    rewrite bool_decide_eq_true_2 by reflexivity. simpl.
    now apply is_set_true.
  - destruct (needs_closed h p Hp) as (q & Hq & Hpq).
    destruct (guard_requires h _ q Hg Hq) as (fq & Hfq & Hinq).
    destruct (Hacc q fq Hfq Hinq p) as (e & He & Hc).
    { destruct Hpq; [now left | now right]. }
    exists e. split; [apply in_app_iff; now left | exact Hc].
Qed.

Lemma perform_accounted w a hist s es s' :
  accounted hist s -> perform w a s = (es, s') -> accounted (hist ++ es) s'.
Proof.
  intros Hacc Hp. destruct a as [h|k|r|r]; simpl in Hp.
  - destruct (guard h (flags s)) eqn:Hg; injection Hp as <- <-.
    + now apply dispatch_accounted.
    + apply (accounted_weaken _ _ s); [exact Hacc | set_solver].
  - injection Hp as <- <-. apply (accounted_weaken _ _ s); [exact Hacc |].
    destruct k; [simpl; set_solver |].
    simpl hook_body. now rewrite cleanup_deployment_run.
  - injection Hp as <- <-. intros h f Hf Hin p Hpp.
    simpl in Hin. apply elem_of_union in Hin as [Hin|Hin].
    + apply elem_of_singleton in Hin. subst f.
      now apply relation_flag_foreign in Hf.
    + destruct (Hacc h f Hf Hin p Hpp) as (e & He & Hc).
      exists e. split; [apply in_app_iff; now left | exact Hc].
  - injection Hp as <- <-. apply (accounted_weaken _ _ s); [exact Hacc |].
    simpl. set_solver.
Qed.

Lemma exec_accounted sched hist s hist' s' :
  accounted hist s -> exec sched hist s = (hist', s') -> accounted hist' s'.
Proof.
  revert hist s. induction sched as [|[w a] sched IH]; intros hist s Hacc He.
  - simpl in He. now injection He as <- <-.
  - simpl in He. destruct (perform w a s) as [es s1] eqn:Hp.
    eapply IH; [|exact He]. eapply perform_accounted; eassumption.
Qed.

Lemma fresh_accounted s : fresh s -> accounted [] s.
Proof. intros Hf h f Hh Hin. now apply Hf in Hh. Qed.

Lemma fresh_empty_state : fresh empty_state.
Proof. intros h f _. simpl. set_solver. Qed.

End Order.

Section OrderClaims.

(** Claim C4 as written fails: the version is reported as soon as the
    binaries are installed, before the credentials, the service file,
    the etcd configuration, the start of the service and the readiness
    signal, all of which are listed before it. *)
Lemma steps_not_linear :
  fresh empty_state /\ ~ respects listed_before version_first empty_state.
Proof.
  split; [apply fresh_empty_state |].
  intros H.
  destruct (H [(sample_world, Dispatch h_install_flannel_binaries)]
              sample_world h_set_flannel_version []
              (fst (run [(sample_world, Dispatch h_install_flannel_binaries)] empty_state))
              (snd (run [(sample_world, Dispatch h_install_flannel_binaries)] empty_state))
              eq_refl)
    with (p := h_install_etcd_credentials) as (e & He & Hc).
  - now destruct (run _ empty_state).
  - vm_compute. reflexivity.
  - vm_compute. tauto.
  - vm_compute in He. destruct He as [<- | []]. vm_compute in Hc. discriminate.
Qed.

(** Claim C4, amended: in every run from a fresh unit a step is invoked
    only after the steps its decorators ask for, and those they need,
    have run to their end: the service file and the etcd configuration
    come after the binaries and the credentials, the start of the service
    after these four, the readiness signal after the start, and the
    version after the binaries alone. *)
Theorem steps_in_dependency_order (sched : list (world * action)) (s0 : state) :
  fresh s0 -> respects needs sched s0.
Proof.
  intros Hfresh pre w h post hist s Hsched Hrun Hg p Hp.
  assert (Hacc : accounted hist s).
  { eapply exec_accounted; [apply fresh_accounted; exact Hfresh | exact Hrun]. }
  destruct (needs_closed h p Hp) as (q & Hq & Hpq).
  destruct (guard_requires h _ q Hg Hq) as (fq & Hfq & Hinq).
  apply (Hacc q fq Hfq Hinq p).
  destruct Hpq; [now left | now right].
Qed.

Lemma steps_in_dependency_order_witness : respects needs deployment empty_state.
Proof.
  apply (steps_in_dependency_order deployment empty_state).
  intros h f _. simpl. apply not_elem_of_empty.
Defined.

(** The sample deployment does run every step to its end. *)
Example deployment_completes :
  forallb (fun h => existsb (completed h) (fst (run deployment empty_state)))
          install_steps = true
  /\ status (snd (run deployment empty_state)) = Some ("active", "Flannel is active.").
Proof. split; vm_compute; reflexivity. Qed.

End OrderClaims.

(** ** Failures *)

Section Failures.





End Failures.

(** * Beyond the claims *)

(** ** What a handler leaves alone *)

Section Frames.

Context (R : state -> state -> Prop).
Context (R_refl : forall s, R s s).
Context (R_trans : forall a b c, R a b -> R b c -> R a c).

Lemma frames_ret {A} (a : A) : frames R (ret a).
Proof. intros w s. apply R_refl. Qed.

Lemma frames_raise {A} e : frames R (@raise A e).
Proof. intros w s. apply R_refl. Qed.

Lemma frames_ask {A} (f : world -> A) : frames R (ask f).
Proof. intros w s. apply R_refl. Qed.

Lemma frames_get {A} (f : state -> A) : frames R (get f).
Proof. intros w s. apply R_refl. Qed.

Lemma frames_tell e : frames R (tell e).
Proof. intros w s. apply R_refl. Qed.

Lemma frames_lift {A} (r : result A) : frames R (lift r).
Proof. destruct r; [apply frames_ret | apply frames_raise]. Qed.

Lemma frames_modify f : (forall s, R s (f s)) -> frames R (modify f).
Proof. intros H w s. apply H. Qed.

Lemma frames_bind {A B} (m : M A) (k : A -> M B) :
  frames R m -> (forall a, frames R (k a)) -> frames R (bind m k).
Proof.
  intros Hm Hk w s. rewrite bind_unfold. specialize (Hm w s).
  destruct (res (m w s)) as [a|e]; [|exact Hm].
  cbn [prepend final]. eapply R_trans; [exact Hm | apply Hk].
Qed.

Lemma frames_for_each {A} (l : list A) (body : A -> M unit) :
  (forall a, frames R (body a)) -> frames R (for_each l body).
Proof.
  intros Hb. induction l as [|x l IH]; [apply frames_ret |].
  simpl. apply frames_bind; [apply Hb | intros _; exact IH].
Qed.

Lemma frames_check_call argv : frames R (check_call argv).
Proof.
  unfold check_call. apply frames_bind; [apply frames_tell | intros _].
  apply frames_bind; [apply frames_ask | intros code].
  destruct (code =? 0)%Z; [apply frames_ret | apply frames_raise].
Qed.

Lemma frames_check_output argv : frames R (check_output argv).
Proof.
  unfold check_output. apply frames_bind; [apply frames_tell | intros _].
  apply frames_bind; [apply frames_ask | intros code].
  destruct (code =? 0)%Z; [apply frames_ask | apply frames_raise].
Qed.

End Frames.

(** Takes a handler apart, down to its changes of the state. *)
Ltac frame rf tr :=
  repeat (first
    [ apply (frames_bind _ tr); [|intros ?]
    | apply (frames_ret _ rf)
    | apply (frames_raise _ rf)
    | apply (frames_ask _ rf)
    | apply (frames_get _ rf)
    | apply (frames_tell _ rf)
    | apply (frames_lift _ rf)
    | apply (frames_check_call _ rf tr)
    | apply (frames_check_output _ rf tr)
    | apply (frames_for_each _ rf tr); intros ?
    | apply frames_modify; intros ?
    | progress cbv zeta
    | match goal with
      | |- frames _ (match ?x with _ => _ end) => destruct x
      end
    | progress unfold blocked, log, log_argv, status_set, set_state, render,
        save_client_credentials, service_start, set_available_on_cni,
        application_version_set, makedirs, split, install_one ]).



Lemma active_refl s : active_only_if_before s s.
Proof. intros H. exact H. Qed.

Lemma active_trans a b c :
  active_only_if_before a b -> active_only_if_before b c ->
  active_only_if_before a c.
Proof. unfold active_only_if_before. tauto. Qed.


(** Only [ready] reports [active]. *)
Lemma body_active h :
  h <> h_ready -> frames active_only_if_before (body h).
Proof.
  intros Hh. destruct h; try contradiction; simpl body;
    match goal with |- frames _ ?m => unfold m end;
    frame active_refl active_trans;
    try (intros H; exact H);
    intros [msg H]; simpl in H; discriminate.
Qed.

(** ** Invariants of runs *)

Section Runs.

(** An invariant of every permitted action is an invariant of the run. *)
Lemma exec_invariant (I : list entry -> state -> Prop)
      (allowed : world * action -> Prop) :
  (forall w a hist s,
      allowed (w, a) -> I hist s ->
      I (hist ++ fst (perform w a s)) (snd (perform w a s))) ->
  forall sched hist s,
    Forall allowed sched -> I hist s ->
    I (fst (exec sched hist s)) (snd (exec sched hist s)).
Proof.
  intros Hstep sched. induction sched as [|[w a] sched IH]; intros hist s Hall HI.
  - exact HI.
  - inversion Hall as [|? ? Ha Hrest]; subst. simpl.
    specialize (Hstep w a hist s Ha HI).
    destruct (perform w a s) as [es s1]. simpl in Hstep. now apply IH.
Qed.

Lemma body_flags_grow h w s f :
  f ∈ flags s -> f ∈ flags (final (body h w s)).
Proof.
  intros Hf. rewrite body_flags. destruct (succeeds h w); set_solver.
Qed.

Lemma body_flags_new h w s f :
  f ∈ flags (final (body h w s)) -> f ∈ flags s \/ completion_flag h = Some f.
Proof.
  rewrite body_flags. unfold flag_set.
  destruct (succeeds h w); [|now left].
  destruct (completion_flag h) as [g|]; intros Hf.
  - apply elem_of_union in Hf as [Hf|Hf]; [|now left].
    right. f_equal. set_solver.
  - left. set_solver.
Qed.

Lemma hook_flags k w s f :
  f <> "flannel.binaries.installed" ->
  (f ∈ flags (final (hook_body k w s)) <-> f ∈ flags s).
Proof.
  intros Hf. destruct k.
  - simpl. set_solver.
  - simpl hook_body. rewrite cleanup_deployment_run. reflexivity.
Qed.

Lemma hook_keeps k w s :
  status (final (hook_body k w s)) = status s
  /\ app_version (final (hook_body k w s)) = app_version s.
Proof.
  destruct k; [now split |].
  simpl hook_body. rewrite cleanup_deployment_run. now split.
Qed.


End Runs.

Section VersionOnce.

Lemma invoked_app hist es : invoked (hist ++ es) = invoked hist ++ invoked es.
Proof. unfold invoked. apply map_app. Qed.



End VersionOnce.

Section ActiveStatus.

Lemma ready_needs_start (fl : gset string) :
  guard h_ready fl = true -> "flannel.service.started" ∈ fl.
Proof. intros Hg. guard_facts. assumption. Qed.

Lemma active_means_started (sched : list (world * action)) (s0 : state) :
  (reports_active s0 -> "flannel.service.started" ∈ flags s0) ->
  reports_active (snd (run sched s0)) ->
  "flannel.service.started" ∈ flags (snd (run sched s0)).
Proof.
  intros H0.
  pose (I := fun (hist : list entry) (s : state) =>
               reports_active s -> "flannel.service.started" ∈ flags s).
  apply (exec_invariant I (fun _ => True)); [| now apply Forall_forall | exact H0].
  intros w a hist s _ HI. unfold I in *. destruct a as [h|k|r|r]; simpl.
  - destruct (guard h (flags s)) eqn:Hg; simpl; [|exact HI].
    intros Hact. apply body_flags_grow.
    destruct (decide (h = h_ready)) as [->|Hh].
    + now apply ready_needs_start.
    + apply HI. now apply (body_active h Hh w s).
  - intros [msg Hact]. destruct (hook_keeps k w s) as [Hst _].
    rewrite Hst in Hact. apply hook_flags; [discriminate |].
    apply HI. now exists msg.
  - intros Hact. specialize (HI Hact). set_solver.
  - intros Hact. specialize (HI Hact). apply elem_of_difference.
    split; [exact HI |]. destruct r; simpl; set_solver.
Qed.

(** On a unit that starts fresh and not [active], the status [active] is
    reported only after [start_flannel_service] has run to its end. *)
Theorem active_only_after_start (sched : list (world * action)) (s0 : state) :
  fresh s0 ->
  ~ reports_active s0 ->
  reports_active (snd (run sched s0)) ->
  exists e, In e (fst (run sched s0))
            /\ completed h_start_flannel_service e = true.
Proof.
  intros Hfresh Hna Hact.
  assert (Hst : "flannel.service.started" ∈ flags (snd (run sched s0))).
  { apply active_means_started; [intros H; contradiction | exact Hact]. }
  assert (Hacc : accounted (fst (run sched s0)) (snd (run sched s0))).
  { apply (exec_accounted sched [] s0); [now apply fresh_accounted |].
    unfold run. now destruct (exec sched [] s0). }
  apply (Hacc h_start_flannel_service "flannel.service.started" eq_refl Hst).
  now left.
Qed.

Lemma active_only_after_start_witness :
  exists e, In e (fst (run deployment empty_state))
            /\ completed h_start_flannel_service e = true.
Proof.
  apply (active_only_after_start deployment empty_state).
  - intros h f _. simpl. apply not_elem_of_empty.
  - intros [msg H]. simpl in H. discriminate.
  - exists "Flannel is active.". vm_compute. reflexivity.
Defined.

End ActiveStatus.

Section AtMostOnce.





End AtMostOnce.

Section WorkerOnly.

Lemma worker_guard h (fl : gset string) :
  h = h_configure_cni \/ h = h_set_available ->
  guard h fl = true -> "cni.is-worker" ∈ fl.
Proof. intros [-> | ->] Hg; guard_facts; assumption. Qed.

(** On a unit that the relation layer never marks as a worker, the CNI
    configuration is never rendered and availability is never signalled
    to the CNI provider. *)
Theorem worker_steps_need_worker (sched : list (world * action)) (s0 : state) :
  "cni.is-worker" ∉ flags s0 ->
  never_worker sched ->
  ~ In h_configure_cni (invoked (fst (run sched s0)))
  /\ ~ In h_set_available (invoked (fst (run sched s0)))
  /\ ("flannel.cni.configured" ∈ flags (snd (run sched s0))
      -> "flannel.cni.configured" ∈ flags s0).
Proof.
  intros Hw Hnever.
  pose (I := fun (hist : list entry) (s : state) =>
               ("cni.is-worker" ∉ flags s)
               /\ ~ In h_configure_cni (invoked hist)
               /\ ~ In h_set_available (invoked hist)
               /\ ("flannel.cni.configured" ∈ flags s ->
                   "flannel.cni.configured" ∈ flags s0)).
  assert (HI : I (fst (run sched s0)) (snd (run sched s0))).
  { apply (exec_invariant I (fun wa => snd wa <> RelationSet cni_is_worker)).
    - intros w a hist s Ha (Hnw & Hc & Ha' & Hfl). unfold I.
      destruct a as [h|k|r|r]; simpl in *.
      + destruct (guard h (flags s)) eqn:Hg; simpl;
          [|rewrite app_nil_r; now repeat split].
        assert (Hh : h <> h_configure_cni /\ h <> h_set_available).
        { split; intros ->; apply Hnw.
          - apply (worker_guard h_configure_cni); [now left | exact Hg].
          - apply (worker_guard h_set_available); [now right | exact Hg]. }
        destruct Hh as [Hh1 Hh2].
        split; [|split; [|split]].
        * intros Hin. apply body_flags_new in Hin as [Hin|Hin]; [contradiction |].
          destruct h; simpl in Hin; discriminate.
        * rewrite invoked_app, in_app_iff. simpl. intuition congruence.
        * rewrite invoked_app, in_app_iff. simpl. intuition congruence.
        * intros Hin. apply body_flags_new in Hin as [Hin|Hin]; [now apply Hfl |].
          destruct h; simpl in Hin; try discriminate. contradiction.
      + rewrite app_nil_r. split; [|split; [exact Hc | split; [exact Ha' |]]].
        * intros Hin. apply hook_flags in Hin; [contradiction | discriminate].
        * intros Hin. apply hook_flags in Hin; [now apply Hfl | discriminate].
      + rewrite app_nil_r. split; [|split; [exact Hc | split; [exact Ha' |]]].
        * intros Hin. apply elem_of_union in Hin as [Hin|Hin]; [|contradiction].
          apply elem_of_singleton in Hin. destruct r; simpl in Hin; try discriminate.
          now apply Ha.
        * intros Hin. apply elem_of_union in Hin as [Hin|Hin]; [|now apply Hfl].
          apply elem_of_singleton in Hin. destruct r; discriminate.
      + rewrite app_nil_r. split; [set_solver |].
        split; [exact Hc | split; [exact Ha' | set_solver]].
    - apply Forall_forall. intros [w a] Hwa. simpl. intros ->.
      apply (Hnever w). now apply list_elem_of_In.
    - split; [exact Hw |]. split; [simpl; tauto |]. split; [simpl; tauto | tauto]. }
  destruct HI as (_ & H1 & H2 & H3). now repeat split.
Qed.

Lemma worker_steps_need_worker_witness :
  let sched := firstn 10 deployment ++ [(sample_world, Dispatch h_configure_cni);
                                        (sample_world, Dispatch h_set_available);
                                        (sample_world, RelationSet cni_is_master);
                                        (sample_world, Dispatch h_ready)] in
  ~ In h_configure_cni (invoked (fst (run sched empty_state)))
  /\ ~ In h_set_available (invoked (fst (run sched empty_state)))
  /\ ("flannel.cni.configured" ∈ flags (snd (run sched empty_state))
      -> "flannel.cni.configured" ∈ flags empty_state).
Proof.
  apply (worker_steps_need_worker _ empty_state).
  - simpl. apply not_elem_of_empty.
  - intros w H. simpl in H.
    repeat (destruct H as [H|H]; [discriminate |]). exact H.
Defined.

End WorkerOnly.

Section Retry.

(** A step that did not run to its end is tried again at the next
    dispatch, and completes then if the host lets it: no failure is
    remembered. *)
Theorem failed_step_is_retried (h : handler) (w1 w2 : world) (s : state) :
  In h install_steps ->
  guard h (flags s) = true ->
  succeeds h w1 = false ->
  succeeds h w2 = true ->
  let s1 := final (dispatch h w1 s) in
  flags s1 = flags s
  /\ dispatch h w2 s1 = body h w2 s1
  /\ res (dispatch h w2 s1) = Ok tt
  /\ exists f, completion_flag h = Some f
               /\ (f ∉ flags s1)
               /\ f ∈ flags (final (dispatch h w2 s1)).
Proof.
  intros Hin Hg Hfail Hok s1.
  destruct (install_step_flag h Hin) as [f Hf].
  assert (Hs1 : flags s1 = flags s).
  { subst s1. unfold dispatch. rewrite Hg, body_flags, Hfail. reflexivity. }
  assert (Hd : dispatch h w2 s1 = body h w2 s1).
  { unfold dispatch. now rewrite Hs1, Hg. }
  split; [exact Hs1 |]. split; [exact Hd |]. rewrite Hd. split.
  - destruct (body_shape h w2) as (r & ev & d & Hrun & _ & Hr & _).
    rewrite Hrun. simpl. now apply Hr.
  - exists f. split; [exact Hf |]. split.
    + rewrite Hs1. intros Hfl. now rewrite (guard_own_flag h f _ Hf Hfl) in Hg.
    + rewrite body_flags, Hok. unfold flag_set. rewrite Hf. set_solver.
Qed.

(** The resource arrives truncated first, and whole at the next
    dispatch. *)
Lemma failed_step_is_retried_witness :
  let h := h_install_flannel_binaries in
  let s1 := final (dispatch h (sized_world 512) empty_state) in
  flags s1 = flags empty_state
  /\ dispatch h sample_world s1 = body h sample_world s1
  /\ res (dispatch h sample_world s1) = Ok tt
  /\ exists f, completion_flag h = Some f
               /\ (f ∉ flags s1)
               /\ f ∈ flags (final (dispatch h sample_world s1)).
Proof.
  apply (failed_step_is_retried h_install_flannel_binaries
           (sized_world 512) sample_world empty_state).
  - simpl. tauto.
  - vm_compute. reflexivity.
  - vm_compute. reflexivity.
  - vm_compute. reflexivity.
Defined.

End Retry.

Section UpgradeRoundTrip.

(** An upgrade of the charm followed by a successful installation of
    the binaries leaves the flags as they were: apart from the binaries
    nothing is set up again, and every other step whose flag is set
    stays idle. *)
Theorem upgrade_then_reinstall (w w' : world) (s : state) :
  "flannel.binaries.installed" ∈ flags s ->
  succeeds h_install_flannel_binaries w' = true ->
  let s1 := final (hook_body upgrade_charm w s) in
  let o := dispatch h_install_flannel_binaries w' s1 in
  res o = Ok tt
  /\ flags (final o) = flags s
  /\ (forall h f w'', In h install_steps -> completion_flag h = Some f ->
        f ∈ flags s ->
        h <> h_install_flannel_binaries ->
        dispatch h w'' s1 = Outcome (Ok tt) s1 []
        /\ dispatch h w'' (final o) = Outcome (Ok tt) (final o) []).
Proof.
  intros Hset Hok s1 o.
  assert (Hs1 : flags s1 = flags s ∖ {["flannel.binaries.installed"]})
    by reflexivity.
  assert (Hg : guard h_install_flannel_binaries (flags s1) = true).
  { rewrite Hs1. guard_facts. set_solver. }
  assert (Ho : o = body h_install_flannel_binaries w' s1).
  { subst o. unfold dispatch. now rewrite Hg. }
  assert (Hfl : flags (final o) = flags s).
  { rewrite Ho, body_flags, Hok, Hs1. unfold flag_set. simpl.
    apply set_eq. intros x. rewrite elem_of_union, elem_of_difference,
      elem_of_singleton.
    destruct (decide (x = "flannel.binaries.installed")) as [->|Hx]; tauto. }
  split; [|split; [exact Hfl |]].
  - rewrite Ho.
    destruct (body_shape h_install_flannel_binaries w') as (r & ev & d & Hrun & _ & Hr & _).
    rewrite Hrun. simpl. now apply Hr.
  - intros h f w'' Hin Hf Hfs Hne. split; unfold dispatch.
    + rewrite (guard_own_flag h f _ Hf); [reflexivity |].
      rewrite Hs1. apply elem_of_difference. split; [exact Hfs |].
      apply not_elem_of_singleton. intros ->. apply Hne.
      now apply (completion_flag_inj h h_install_flannel_binaries
                   "flannel.binaries.installed").
    + rewrite (guard_own_flag h f _ Hf); [reflexivity |]. now rewrite Hfl.
Qed.

Lemma upgrade_then_reinstall_witness :
  let s := snd (run deployment empty_state) in
  let s1 := final (hook_body upgrade_charm sample_world s) in
  let o := dispatch h_install_flannel_binaries sample_world s1 in
  res o = Ok tt
  /\ flags (final o) = flags s
  /\ (forall h f w'', In h install_steps -> completion_flag h = Some f ->
        f ∈ flags s ->
        h <> h_install_flannel_binaries ->
        dispatch h w'' s1 = Outcome (Ok tt) s1 []
        /\ dispatch h w'' (final o) = Outcome (Ok tt) (final o) []).
Proof.
  apply (upgrade_then_reinstall sample_world sample_world
           (snd (run deployment empty_state))).
  - vm_compute. reflexivity.
  - vm_compute. reflexivity.
Defined.

End UpgradeRoundTrip.

Section StopHook.





End StopHook.

Section NoDefaultRoute.

Import PyStr.











End NoDefaultRoute.

Section VersionText.

Import PyStr.

Lemma has_char_strip c s : has_char c (strip s) = true -> has_char c s = true.
Proof.
  intros H. destruct (strip_stripped s) as (l & r & Hs & _).
  rewrite Hs, !has_char_app, H. now rewrite orb_true_r.
Qed.

Lemma space_has_no_v ws :
  all_chars is_space ws = true -> has_char "v" ws = false.
Proof.
  induction ws as [|c ws IH]; [reflexivity |]. simpl.
  intros H. apply andb_true_iff in H as [Hc Hws]. rewrite (IH Hws), orb_false_r.
  destruct (Ascii.eqb_spec c "v") as [->|_]; [discriminate | reflexivity].
Qed.

Lemma strip_spaces ws : all_chars is_space ws = true -> strip ws = EmptyString.
Proof.
  intros H. rewrite <- (append_nil_r ws).
  change (ws +:+ EmptyString) with (ws +:+ EmptyString +:+ EmptyString).
  now apply strip_core.
Qed.

(** The version reported never holds the letter [v] nor white space at
    its ends; and when nothing but white space follows the last [v] of
    the output, the empty version is reported, and the flag is set all
    the same. *)
Theorem reported_version_text (w : world) (s : state) :
  exit_status w version_argv = 0%Z ->
  output_of w version_argv <> EmptyString ->
  let o := set_flannel_version w s in
  exists v,
    events o = [ StatusSet "maintenance" "Setting flannel version.";
                 Call version_argv; ApplicationVersionSet v ]
    /\ "flannel.version.set" ∈ flags (final o)
    /\ has_char "v" v = false
    /\ starts_space v = false
    /\ ends_space v = false
    /\ (forall pre ws, output_of w version_argv = pre +:+ String "v" ws ->
                       all_chars is_space ws = true -> v = EmptyString).
Proof.
  intros Hexit Hout. cbv zeta. rewrite (set_flannel_version_run w s Hexit).
  cbv zeta. destruct (output_of w version_argv) as [|c out] eqn:E; [contradiction |].
  simpl truthy. cbv iota. eexists. split; [reflexivity |].
  split; [simpl; set_solver |].
  destruct (last_field_split "v" (String c out)) as [Hnov _].
  destruct (strip_stripped (last_field (split_on "v" (String c out))))
    as (l & r & _ & _ & _ & Hst & Hen).
  split; [|split; [exact Hst | split; [exact Hen |]]].
  - destruct (has_char "v" (strip _)) eqn:Hv; [|reflexivity].
    apply has_char_strip in Hv. congruence.
  - intros pre ws Hpre Hws. rewrite Hpre.
    rewrite (last_field_after "v" pre ws (space_has_no_v ws Hws)).
    now apply strip_spaces.
Qed.

(** A development build: the last [v] of the output is that of [dev]. *)
Lemma reported_version_text_witness :
  let w := version_world ("v0.8.0-dev" +:+ String newline EmptyString) in
  let o := set_flannel_version w empty_state in
  exists v,
    events o = [ StatusSet "maintenance" "Setting flannel version.";
                 Call version_argv; ApplicationVersionSet v ]
    /\ "flannel.version.set" ∈ flags (final o)
    /\ has_char "v" v = false
    /\ starts_space v = false
    /\ ends_space v = false
    /\ (forall pre ws, output_of w version_argv = pre +:+ String "v" ws ->
                       all_chars is_space ws = true -> v = EmptyString).
Proof.
  apply (reported_version_text
           (version_world ("v0.8.0-dev" +:+ String newline EmptyString))
           empty_state).
  - reflexivity.
  - discriminate.
Defined.

Example development_build_reports_nothing :
  events (set_flannel_version
            (version_world ("v0.8.0-dev" +:+ String newline EmptyString))
            empty_state)
  = [ StatusSet "maintenance" "Setting flannel version.";
      Call version_argv; ApplicationVersionSet EmptyString ].
Proof. vm_compute. reflexivity. Qed.

End VersionText.

Section BlockedStatus.

Lemma blocked_by_resource_refl s : blocked_by_resource s s.
Proof. intros msg H. now right. Qed.

Lemma blocked_by_resource_trans a b c :
  blocked_by_resource a b -> blocked_by_resource b c -> blocked_by_resource a c.
Proof.
  intros Hab Hbc msg H. destruct (Hbc msg H) as [Hin|Hb]; [now left |].
  now apply Hab.
Qed.

Lemma blocked_before_refl s : blocked_only_if_before s s.
Proof. intros msg H. exact H. Qed.

Lemma blocked_before_trans a b c :
  blocked_only_if_before a b -> blocked_only_if_before b c ->
  blocked_only_if_before a c.
Proof. intros Hab Hbc msg H. apply Hab, Hbc, H. Qed.

(** When [install_flannel_binaries] reports [blocked], it is with one of
    its three messages. *)
Lemma install_flannel_binaries_blocked :
  frames blocked_by_resource install_flannel_binaries.
Proof.
  unfold install_flannel_binaries.
  frame blocked_by_resource_refl blocked_by_resource_trans;
    intros msg H; unfold reports_blocked in *; simpl in H;
    try (now right);
    try (injection H as <-; left; simpl; tauto);
    discriminate.
Qed.

(** No other handler reports [blocked]. *)
Lemma body_blocked h :
  h <> h_install_flannel_binaries -> frames blocked_only_if_before (body h).
Proof.
  intros Hh. destruct h; try contradiction; simpl body;
    match goal with |- frames _ ?m => unfold m end;
    frame blocked_before_refl blocked_before_trans;
    intros msg H; unfold reports_blocked in *; simpl in H;
    try exact H; discriminate.
Qed.

(** A unit that was not [blocked] and is [blocked] at the end of a run
    had [install_flannel_binaries] invoked, and the message is one of
    the three about the resource: fetching failed, it is missing, or it
    is incomplete. *)
Theorem blocked_means_resource (sched : list (world * action)) (s0 : state)
        (msg : string) :
  (forall m, ~ reports_blocked m s0) ->
  reports_blocked msg (snd (run sched s0)) ->
  In h_install_flannel_binaries (invoked (fst (run sched s0)))
  /\ In msg blocked_messages.
Proof.
  intros H0.
  pose (I := fun (hist : list entry) (s : state) =>
               forall m, reports_blocked m s ->
                 In h_install_flannel_binaries (invoked hist)
                 /\ In m blocked_messages).
  assert (HI : I (fst (run sched s0)) (snd (run sched s0))).
  { apply (exec_invariant I (fun _ => True)); [| now apply Forall_forall | ].
    - intros w a hist s _ HI. unfold I in *. destruct a as [h|k|r|r]; simpl.
      + destruct (guard h (flags s)) eqn:Hg; simpl;
          [|now rewrite app_nil_r].
        intros m Hm. rewrite invoked_app, in_app_iff.
        destruct (decide (h = h_install_flannel_binaries)) as [->|Hh].
        * split; [right; now left |].
          destruct (install_flannel_binaries_blocked w s m Hm) as [Hin|Hb];
            [exact Hin | now apply (HI m)].
        * destruct (HI m (body_blocked h Hh w s m Hm)) as [H1 H2]. tauto.
      + rewrite app_nil_r. intros m Hm. apply HI. unfold reports_blocked in *.
        destruct (hook_keeps k w s) as [Hst _]. now rewrite <- Hst.
      + rewrite app_nil_r. exact HI.
      + rewrite app_nil_r. exact HI.
    - intros m Hm. now apply H0 in Hm. }
  apply HI.
Qed.

Lemma blocked_means_resource_witness :
  let sched := [ (sized_world 512, Dispatch h_install_flannel_binaries);
                 (sized_world 512, RelationSet etcd_connected) ] in
  In h_install_flannel_binaries (invoked (fst (run sched empty_state)))
  /\ In "Incomplete flannel resource" blocked_messages.
Proof.
  apply (blocked_means_resource _ empty_state "Incomplete flannel resource").
  - intros m H. unfold reports_blocked in H. simpl in H. discriminate.
  - vm_compute. reflexivity.
Defined.

End BlockedStatus.
